(** * DataSculptor: image sources ([datasculptor/image_source.py])

    A shallow embedding of the image-source hierarchy of DataSculptor and of
    the crop-caching protocol of [CropImageSource.save], together with the
    properties that the specification states about them.

    The Python module is glue over three collaborators: the [os]/[os.path]
    functions, the filesystem and the OpenCV codec.  They are modelled as
    follows.

    - Python [str] is [string]; [os.path] is the POSIX flavour
      ([posixpath]), written out below.
    - The filesystem is a finite map from paths to file contents plus a set
      of directories.  Paths are compared literally: no [..], no symbolic
      links, no collapsing of doubled slashes.  The directories may lie on
      several devices ([Mounts]); [os.rename] does not cross them.
    - The codec ([cv2.imdecode], [cv2.imencode], [cv2.imwrite]) is an
      interface, [Cv2]; so are the injected preprocessing and cropper
      functions, which may raise but have no effect on the filesystem.
    - Effects are threaded through a state-and-exception monad over a
      [world]: the filesystem and the chronological trace of the calls made
      to the collaborators. *)

From Stdlib Require Import String Ascii List ZArith Lia.
From stdpp Require Import base option list gmap sets strings pretty.

Local Open Scope string_scope.
Local Open Scope list_scope.

(** ** Python strings *)

Module PyStr.

(** [s.split(c)] for a one-character separator: never empty. *)
Fixpoint split (c : ascii) (s : string) : list string :=
  match s with
  | EmptyString => [EmptyString]
  | String a r =>
      if Ascii.eqb a c then EmptyString :: split c r
      else match split c r with
           | h :: t => String a h :: t
           | [] => [String a EmptyString]
           end
  end.

(** [c.join(l)]. *)
Definition join (c : ascii) (l : list string) : string :=
  String.concat (String c EmptyString) l.

(** [s.startswith(c)] and [s.endswith(c)]. *)
Definition startswith (c : ascii) (s : string) : bool :=
  match s with
  | String a _ => Ascii.eqb a c
  | EmptyString => false
  end.

Fixpoint endswith (c : ascii) (s : string) : bool :=
  match s with
  | EmptyString => false
  | String a EmptyString => Ascii.eqb a c
  | String _ r => endswith c r
  end.

(** [s.rstrip(c)]. *)
Fixpoint rstrip (c : ascii) (s : string) : string :=
  match s with
  | EmptyString => EmptyString
  | String a r =>
      match rstrip c r with
      | EmptyString => if Ascii.eqb a c then EmptyString else String a EmptyString
      | r' => String a r'
      end
  end.

(** Every character of [s] is [c] (true of the empty string). *)
Fixpoint all_char (c : ascii) (s : string) : bool :=
  match s with
  | EmptyString => true
  | String a r => Ascii.eqb a c && all_char c r
  end.

(** [c in s]. *)
Fixpoint contains (c : ascii) (s : string) : bool :=
  match s with
  | EmptyString => false
  | String a r => Ascii.eqb a c || contains c r
  end.

(** [str(i)] for a non-negative integer: decimal, no leading zero. *)
Definition str (i : nat) : string := pretty i.

End PyStr.

(** ** [os.path] (posixpath) *)

Module os_path.

Definition sep : ascii := "/"%char.
Definition extsep : ascii := "."%char.

(** [os.path.join(a, b)]. *)
Definition join (a b : string) : string :=
  if PyStr.startswith sep b then b
  else if String.eqb a "" || PyStr.endswith sep a then a +:+ b
  else a +:+ "/" +:+ b.

(** [p[i:]] with [i = p.rfind('/') + 1]. *)
Definition basename (p : string) : string :=
  List.last (PyStr.split sep p) "".

(** [p[:i]] with [i = p.rfind('/') + 1]: everything up to and including
    the last slash. *)
Definition head (p : string) : string :=
  match removelast (PyStr.split sep p) with
  | [] => ""
  | init => PyStr.join sep init +:+ "/"
  end.

(** [os.path.split(p)]: the head loses its trailing slashes unless it
    consists of slashes only. *)
Definition split (p : string) : string * string :=
  let h := head p in
  ((if PyStr.all_char sep h then h else PyStr.rstrip sep h), basename p).

Definition dirname (p : string) : string := fst (split p).

(** [genericpath._splitext] on a name without separator: the extension
    starts at the last dot, unless only dots precede it. *)
Definition splitext_name (f : string) : string * string :=
  let segs := PyStr.split extsep f in
  match removelast segs with
  | [] => (f, "")
  | init =>
      let stem := PyStr.join extsep init in
      if PyStr.all_char extsep stem then (f, "")
      else (stem, String extsep (List.last segs ""))
  end.

(** [os.path.splitext(p)]: a dot in a directory component does not count. *)
Definition splitext (p : string) : string * string :=
  let '(r, e) := splitext_name (basename p) in (head p +:+ r, e).

End os_path.

(** ** Exceptions *)

(** The exceptions that can travel through this module.  [OSError_other]
    is an [OSError] without a subclass of its own: [EXDEV] (a rename across
    devices), [ENOTEMPTY], [EINVAL], [EBUSY].  [Raised] stands for whatever
    an injected preprocessing or cropper function raises. *)
Inductive exn : Type :=
| FileNotFoundError
| FileExistsError
| IsADirectoryError
| NotADirectoryError
| OSError_other
| TypeError
| IndexError
| AttributeError
| cv2_error
| Raised (tag : string).

(** [isinstance(e, OSError)]; [IOError] is an alias of [OSError]. *)
Definition is_OSError (e : exn) : bool :=
  match e with
  | FileNotFoundError | FileExistsError | IsADirectoryError
  | NotADirectoryError | OSError_other => true
  | _ => false
  end.

(** ** The filesystem *)

Abbreviation bytes := (list Byte.byte).

Record filesystem : Type := mk_fs {
  files : gmap string bytes;
  dirs : gset string
}.

(** The device on which the directory at a path lies.  Nothing in this
    module mounts or unmounts, so the assignment is fixed. *)
Class Mounts : Type := {
  device : string -> nat
}.

Module FS.

Definition isfile (fs : filesystem) (p : string) : bool :=
  bool_decide (is_Some (files fs !! p)).

(** Directories are stored without trailing slash; a path made of slashes
    only is the root, which always exists. *)
Definition isdir (fs : filesystem) (p : string) : bool :=
  let d := PyStr.rstrip os_path.sep p in
  if String.eqb d "" then negb (String.eqb p "")
  else bool_decide (d ∈ dirs fs).

(** [os.path.exists]. *)
Definition path_exists (fs : filesystem) (p : string) : bool :=
  isfile fs p || isdir fs p.

(** The prefixes of [s] that end just before a slash, and [s] itself. *)
Fixpoint dir_prefixes (acc s : string) : list string :=
  match s with
  | EmptyString => [acc]
  | String c r =>
      (if Ascii.eqb c os_path.sep then [acc] else [])
        ++ dir_prefixes (acc +:+ String c EmptyString) r
  end.

(** The directories on the way to [p], [p] included: those that
    [os.makedirs(p)] makes sure exist. *)
Definition ancestors (p : string) : list string :=
  List.filter (fun d => negb (String.eqb d ""))
              (List.map (PyStr.rstrip os_path.sep) (dir_prefixes "" p)).

(** Whether the directory that is to hold [p] can be reached: [p] is not
    empty and its parent is a directory (an empty parent is the current
    directory). *)
Definition reachable (fs : filesystem) (p : string) : bool :=
  negb (String.eqb p "")
    && (String.eqb (os_path.dirname p) "" || isdir fs (os_path.dirname p)).

(** The error of looking up the parent of [p], if any: [ENOTDIR] when a
    regular file is in the way, [ENOENT] otherwise. *)
Definition parent_error (fs : filesystem) (p : string) : option exn :=
  if reachable fs p then None
  else if String.eqb p "" then Some FileNotFoundError
  else if existsb (isfile fs) (ancestors (os_path.dirname p))
       then Some NotADirectoryError
  else Some FileNotFoundError.

(** Whether [p] can be opened for writing: it is not a directory and
    its parent is one (an empty parent is the current directory). *)
Definition writable (fs : filesystem) (p : string) : bool :=
  let d := os_path.dirname p in
  negb (String.eqb p "") && negb (isdir fs p)
    && (String.eqb d "" || isdir fs d).

(** The error of opening [p] for writing, if any: that of the way to
    [p], or [EISDIR]. *)
Definition write_error (fs : filesystem) (p : string) : option exn :=
  match parent_error fs p with
  | Some e => Some e
  | None => if isdir fs p then Some IsADirectoryError else None
  end.

Definition write_file (p : string) (buf : bytes) (fs : filesystem) : filesystem :=
  {| files := <[p := buf]> (files fs); dirs := dirs fs |}.

(** [os.makedirs(p, exist_ok=True)]. *)
Definition makedirs (p : string) (fs : filesystem) : exn + filesystem :=
  if String.eqb p "" then inl FileNotFoundError
  else if isfile fs (PyStr.rstrip os_path.sep p) then inl FileExistsError
  else if existsb (isfile fs) (ancestors p) then inl NotADirectoryError
  else inr {| files := files fs; dirs := dirs fs ∪ list_to_set (ancestors p) |}.

(** Where an entry [k] ends up when the directory [src] becomes [dst]. *)
Definition rekey (src dst k : string) : string :=
  if String.eqb k src then dst
  else if String.prefix (src +:+ "/") k
       then dst +:+ String.substring (String.length src)
                                     (String.length k - String.length src) k
       else k.

Definition has_entries (fs : filesystem) (d : string) : bool :=
  existsb (String.prefix (d +:+ "/"))
          (elements (dom (files fs)) ++ elements (dirs fs)).

(** What stops [rename(2)] before it looks at the last component of either
    path: the lookup of the parent of [src], then that of the parent of
    [dst], then [EXDEV] when the two parents lie on different devices. *)
Definition rename_blocked `{Mounts} (fs : filesystem) (src dst : string)
  : option exn :=
  match parent_error fs src with
  | Some e => Some e
  | None =>
      match parent_error fs dst with
      | Some e => Some e
      | None =>
          if Nat.eqb (device (os_path.dirname src))
                     (device (os_path.dirname dst))
          then None else Some OSError_other
      end
  end.

(** [os.rename(src, dst)], in the order in which [rename(2)] decides: the
    two parents and their devices first, then the source, then the
    destination.  A file replaces the file at [dst], if any, and cannot
    replace a directory; a directory moves with everything below it. *)
Definition rename `{Mounts} (src dst : string) (fs : filesystem)
  : exn + filesystem :=
  match rename_blocked fs src dst with
  | Some e => inl e
  | None =>
      match files fs !! src with
      | Some buf =>
          if isdir fs dst then inl IsADirectoryError
          else inr {| files := <[dst := buf]> (delete src (files fs));
                      dirs := dirs fs |}
      | None =>
          let s := PyStr.rstrip os_path.sep src in
          let d := PyStr.rstrip os_path.sep dst in
          if negb (isdir fs src) then inl FileNotFoundError
          else if String.eqb s "" || String.eqb d "" then inl OSError_other
          else if isfile fs d then inl NotADirectoryError
          else if String.prefix (s +:+ "/") d then inl OSError_other
          else if isdir fs d && has_entries fs d then inl OSError_other
          else if negb (String.eqb (os_path.dirname d) ""
                        || isdir fs (os_path.dirname d))
               then inl FileNotFoundError
          else inr {| files := list_to_map
                                 (List.map
                                    (fun kv => (rekey s d (fst kv), snd kv))
                                    (map_to_list (files fs)));
                      dirs := set_map (rekey s d) (dirs fs) |}
      end
  end.

End FS.

(** ** The codec *)

(** OpenCV as this module uses it.  [ndarray] is the type of the values
    that flow through [read]: decoded pixel buffers and whatever else
    [cv2.imdecode] and the injected functions return ([None] included).
    - [imdecode buf]: [cv2.imdecode(buf, cv2.IMREAD_COLOR)];
    - [cv2_imencode ext img]: [cv2.imencode(ext, img)].  It raises
      [cv2.error] when there is no encoder for [ext] or the image is
      empty; otherwise it returns a flag and the encoded buffer, an
      array, or, when there is none, the empty tuple ([None] here), which
      is what comes with the flag [False];
    - [imwrite_encode filename img]: the encoding step of
      [cv2.imwrite(filename, img)]; [None] when OpenCV reports failure by
      returning [False]. *)
Class Cv2 : Type := {
  ndarray : Type;
  imdecode : bytes -> exn + ndarray;
  cv2_imencode : string -> ndarray -> exn + (bool * option bytes);
  imwrite_encode : string -> ndarray -> exn + option bytes
}.

(** What [_write] has in hand once [cv2.imencode] has returned and the
    [tofile] method of the buffer has been looked up: a flag and an
    array, or the [AttributeError] of the empty tuple, which has no such
    method. *)
Definition imencode `{Cv2} (ext : string) (img : ndarray)
  : exn + (bool * bytes) :=
  match cv2_imencode ext img with
  | inl e => inl e
  | inr (is_success, Some im_buf_arr) => inr (is_success, im_buf_arr)
  | inr (_, None) => inl AttributeError
  end.

(** ** Worlds and the effect monad *)

(** The calls made to the collaborators, in the order they are made. *)
Inductive event `{Cv2} : Type :=
| EvFromfile (path : string)
| EvCropper (img : ndarray)
| EvImwrite (filename : string) (img : ndarray)
| EvTofile (path : string) (buf : bytes)
| EvMakedirs (path : string)
| EvRename (src dst : string).

Record world `{Cv2} : Type := mk_world {
  w_fs : filesystem;
  w_trace : list event
}.

Arguments mk_world {_} _ _.

(** A computation runs in a world and either returns ([inr]) or raises
    ([inl]); the world it leaves behind is kept in both cases. *)
Definition M `{Cv2} (A : Type) : Type := world -> (exn + A) * world.

Definition ret `{Cv2} {A} (a : A) : M A := fun w => (inr a, w).

Definition raise `{Cv2} {A} (e : exn) : M A := fun w => (inl e, w).

Definition bind `{Cv2} {A B} (m : M A) (k : A -> M B) : M B :=
  fun w =>
    match m w with
    | (inr a, w') => k a w'
    | (inl e, w') => (inl e, w')
    end.

Notation "x <- m ;; k" := (bind m (fun x => k))
  (at level 100, m at next level, right associativity).
Notation "m ;;; k" := (bind m (fun _ => k))
  (at level 100, right associativity).

(** A call that returns or raises without touching the world. *)
Definition lift `{Cv2} {A} (r : exn + A) : M A := fun w => (r, w).

Definition add_event `{Cv2} (e : event) (w : world) : world :=
  {| w_fs := w_fs w; w_trace := w_trace w ++ [e] |}.

Definition log `{Cv2} (e : event) : M unit :=
  fun w => (inr tt, add_event e w).

Definition get_fs `{Cv2} : M filesystem := fun w => (inr (w_fs w), w).

Definition put_fs `{Cv2} (fs : filesystem) : M unit :=
  fun w => (inr tt, {| w_fs := fs; w_trace := w_trace w |}).

(** A filesystem operation that fails without effect. *)
Definition fs_step `{Cv2} (op : filesystem -> exn + filesystem) : M unit :=
  fs <- get_fs ;;
  match op fs with
  | inl e => raise e
  | inr fs' => put_fs fs'
  end.

Section Collaborators.
Context `{Cv2} `{Mounts}.

(** [np.fromfile(path, dtype=np.uint8)]. *)
Definition np_fromfile (path : string) : M bytes :=
  log (EvFromfile path) ;;;
  fs <- get_fs ;;
  match files fs !! path with
  | Some buf => ret buf
  | None => raise (if FS.isdir fs path then IsADirectoryError
                   else FileNotFoundError)
  end.

(** [buf.tofile(path)]. *)
Definition tofile (buf : bytes) (path : string) : M unit :=
  log (EvTofile path buf) ;;;
  fs <- get_fs ;;
  match FS.write_error fs path with
  | Some e => raise e
  | None => put_fs (FS.write_file path buf fs)
  end.

(** [cv2.imwrite(filename, img)]: raises when OpenCV does (no encoder for
    the extension, empty image); returns [False], writing nothing, when
    the encoding or the opening of the file fails. *)
Definition cv2_imwrite (filename : string) (img : ndarray) : M bool :=
  log (EvImwrite filename img) ;;;
  match imwrite_encode filename img with
  | inl e => raise e
  | inr None => ret false
  | inr (Some buf) =>
      fs <- get_fs ;;
      match FS.write_error fs filename with
      | Some _ => ret false
      | None => put_fs (FS.write_file filename buf fs) ;;; ret true
      end
  end.

Definition os_makedirs (p : string) : M unit :=
  log (EvMakedirs p) ;;; fs_step (FS.makedirs p).

Definition os_path_exists (p : string) : M bool :=
  fs <- get_fs ;; ret (FS.path_exists fs p).

Definition os_rename (src dst : string) : M unit :=
  log (EvRename src dst) ;;; fs_step (FS.rename src dst).

End Collaborators.

(** ** The image sources *)

Section Sources.
Context `{Cv2} `{Mounts}.

(** The injected transforms: they return or raise. *)
Definition preprocessing_fn : Type := ndarray -> exn + ndarray.
Definition cropper : Type := ndarray -> exn + list ndarray.

(** The objects of the two concrete classes, with their attributes. *)
Inductive ImageSource : Type :=
| PathSource (path : string) (preprocessing_fns : list preprocessing_fn)
             (name : string)
| CropSource (original_image_source : ImageSource) (idx : Z)
             (cropper_fn : cropper) (name : string).

Definition name (s : ImageSource) : string :=
  match s with
  | PathSource _ _ n => n
  | CropSource _ _ _ n => n
  end.

(** [PathImageSource.__init__(path, preprocessing_fns=None, name=None)]:
    [x or y] takes [y] when [x] is [None] or empty (an empty list of
    functions is replaced by an empty list). *)
Definition PathImageSource (path : string)
    (preprocessing_fns : option (list preprocessing_fn))
    (name : option string) : ImageSource :=
  PathSource path
    (match preprocessing_fns with
     | Some fns => fns
     | None => []
     end)
    (match name with
     | Some (String c n) => String c n
     | _ => fst (os_path.splitext (os_path.basename path))
     end).

(** [CropImageSource.__init__(original_image_source, idx, cropper_fn, name)]. *)
Definition CropImageSource (original_image_source : ImageSource) (idx : Z)
    (cropper_fn : cropper) (name : string) : ImageSource :=
  CropSource original_image_source idx cropper_fn name.

(** [for fn in self.preprocessing_fns: img = fn(img)]. *)
Fixpoint apply_fns (fns : list preprocessing_fn) (img : ndarray) : M ndarray :=
  match fns with
  | [] => ret img
  | fn :: rest => img' <- lift (fn img) ;; apply_fns rest img'
  end.

(** [read]: [PathImageSource.read] and [CropImageSource.read]. *)
Fixpoint read (self : ImageSource) : M ndarray :=
  match self with
  | PathSource path fns _ =>
      buf <- np_fromfile path ;;
      img <- lift (imdecode buf) ;;
      apply_fns fns img
  | CropSource original _ _ _ =>
      img <- read original ;;
      ret img
  end.

(** [_write(path, img)], the same in both classes: the success flag of
    [cv2.imencode] is bound and not looked at; [im_buf_arr.tofile] raises
    [AttributeError] when [im_buf_arr] is not an array. *)
Definition _write (path : string) (img : ndarray) : M unit :=
  let ext := snd (os_path.splitext (snd (os_path.split path))) in
  r <- lift (cv2_imencode ext img) ;;
  let '(is_success, im_buf_arr) := r in
  match im_buf_arr with
  | Some arr => tofile arr path
  | None => raise AttributeError
  end.

(** [crops[i]] for a Python integer [i]: negative indices count from the
    end. *)
Definition getitem {A} (l : list A) (i : Z) : M A :=
  let j := if (i <? 0)%Z then (Z.of_nat (length l) + i)%Z else i in
  if (j <? 0)%Z then raise IndexError
  else match l !! Z.to_nat j with
       | Some x => ret x
       | None => raise IndexError
       end.

Definition call_cropper (cropper_fn : cropper) (img : ndarray)
  : M (list ndarray) :=
  log (EvCropper img) ;;; lift (cropper_fn img).

(** The file name under which the populate step writes crop [i]. *)
Definition crop_filename (name : string) (i : nat) (image_ext : string)
  : string :=
  PyStr.join "_" (removelast (PyStr.split "_" name))
    +:+ "_" +:+ PyStr.str i +:+ image_ext.

(** [for i, crop in enumerate(crops): cv2.imwrite(..., crop)], from
    position [i] on; the value of [cv2.imwrite] is dropped. *)
Fixpoint write_crops (cache_dir name image_ext : string) (i : nat)
    (crops : list ndarray) : M unit :=
  match crops with
  | [] => ret tt
  | crop :: rest =>
      cv2_imwrite (os_path.join cache_dir (crop_filename name i image_ext))
                  crop ;;;
      write_crops cache_dir name image_ext (S i) rest
  end.

(** [PathImageSource.save]: [cache_dir] is ignored. *)
Definition PathImageSource_save (self : ImageSource) (save_dir : string)
    (image_ext : string) (cache_dir : option string) : M unit :=
  img <- read self ;;
  _write (os_path.join save_dir (name self +:+ image_ext)) img.

(** [CropImageSource.save].  Without a cache directory the call gets as
    far as [os.path.join(None, ...)], which raises [TypeError] before
    [cv2.imwrite] is entered. *)
Definition CropImageSource_save (original : ImageSource) (idx : Z)
    (cropper_fn : cropper) (name : string) (save_dir : string)
    (image_ext : string) (cache_dir : option string) : M unit :=
  let self := CropSource original idx cropper_fn name in
  match cache_dir with
  | None =>
      img <- read self ;;
      crops <- call_cropper cropper_fn img ;;
      crop <- getitem crops idx ;;
      raise TypeError
  | Some cache_dir =>
      os_makedirs cache_dir ;;;
      let cached_file := os_path.join cache_dir (name +:+ image_ext) in
      cached <- os_path_exists cached_file ;;
      (if negb cached then
         img <- read self ;;
         crops <- call_cropper cropper_fn img ;;
         write_crops cache_dir name image_ext 0 crops
       else ret tt) ;;;
      os_rename cached_file (os_path.join save_dir (name +:+ image_ext))
  end.

(** [source.save(save_dir, image_ext, cache_dir)], dispatched on the
    class of [source]. *)
Definition save (self : ImageSource) (save_dir : string)
    (image_ext : string) (cache_dir : option string) : M unit :=
  match self with
  | PathSource _ _ _ => PathImageSource_save self save_dir image_ext cache_dir
  | CropSource original idx cropper_fn name =>
      CropImageSource_save original idx cropper_fn name
                           save_dir image_ext cache_dir
  end.

(** [paths2image_sources(paths, preprocess_fns=None)]. *)
Definition paths2image_sources (paths : list string)
    (preprocess_fns : option (list preprocessing_fn)) : list ImageSource :=
  fold_left
    (fun image_sources path =>
       image_sources ++ [PathImageSource path preprocess_fns None])
    paths [].

(** The sources of a list saved one after the other, as a caller's loop
    does; the first exception ends the loop. *)
Fixpoint save_all (sources : list ImageSource) (save_dir : string)
    (image_ext : string) (cache_dir : option string) : M unit :=
  match sources with
  | [] => ret tt
  | s :: rest =>
      save s save_dir image_ext cache_dir ;;;
      save_all rest save_dir image_ext cache_dir
  end.

End Sources.

(** ** Pure views of the operations

    What [read] returns and what the populate loop leaves on disk, as
    functions of the filesystem; and the reference definitions that the
    properties compare the code with. *)

Section Views.
Context `{Cv2} `{Mounts}.

(** The file that a source is ultimately read from. *)
Fixpoint root_path (s : ImageSource) : string :=
  match s with
  | PathSource path _ _ => path
  | CropSource original _ _ _ => root_path original
  end.

Fixpoint root_fns (s : ImageSource) : list preprocessing_fn :=
  match s with
  | PathSource _ fns _ => fns
  | CropSource original _ _ _ => root_fns original
  end.

(** The functions of a chain applied from left to right, each to the
    output of the one before; the first exception ends the chain. *)
Definition pipeline (fns : list preprocessing_fn) (img : ndarray)
  : exn + ndarray :=
  fold_left (fun acc fn => match acc with
                           | inr x => fn x
                           | inl e => inl e
                           end) fns (inr img).

(** A function that never raises, as an injected transform. *)
Definition total (g : ndarray -> ndarray) : preprocessing_fn :=
  fun x => inr (g x).

Definition read_result (s : ImageSource) (fs : filesystem) : exn + ndarray :=
  match files fs !! root_path s with
  | None => inl (if FS.isdir fs (root_path s) then IsADirectoryError
                 else FileNotFoundError)
  | Some buf =>
      match imdecode buf with
      | inl e => inl e
      | inr img => pipeline (root_fns s) img
      end
  end.

(** The [cv2.imwrite] calls of the populate loop, from position [i] on. *)
Fixpoint imwrite_events (cache_dir name image_ext : string) (i : nat)
    (crops : list ndarray) : list event :=
  match crops with
  | [] => []
  | crop :: rest =>
      EvImwrite (os_path.join cache_dir (crop_filename name i image_ext)) crop
        :: imwrite_events cache_dir name image_ext (S i) rest
  end.

(** What one [cv2.imwrite] that does not raise does to the filesystem. *)
Definition imwrite_fs (filename : string) (img : ndarray) (fs : filesystem)
  : filesystem :=
  match imwrite_encode filename img with
  | inr (Some buf) =>
      if FS.writable fs filename then FS.write_file filename buf fs else fs
  | _ => fs
  end.

Fixpoint populate_fs (cache_dir name image_ext : string) (i : nat)
    (crops : list ndarray) (fs : filesystem) : filesystem :=
  match crops with
  | [] => fs
  | crop :: rest =>
      populate_fs cache_dir name image_ext (S i) rest
        (imwrite_fs (os_path.join cache_dir (crop_filename name i image_ext))
                    crop fs)
  end.

(** No [cv2.imwrite] of the populate loop raises. *)
Fixpoint encodes_all (cache_dir name image_ext : string) (i : nat)
    (crops : list ndarray) : bool :=
  match crops with
  | [] => true
  | crop :: rest =>
      match imwrite_encode
              (os_path.join cache_dir (crop_filename name i image_ext)) crop with
      | inl _ => false
      | inr _ => encodes_all cache_dir name image_ext (S i) rest
      end
  end.

(** The content that the populate loop leaves at [p], if it writes there:
    the last successful write wins. *)
Fixpoint created (fs : filesystem) (cache_dir name image_ext : string)
    (i : nat) (crops : list ndarray) (p : string) : option bytes :=
  match crops with
  | [] => None
  | crop :: rest =>
      match created fs cache_dir name image_ext (S i) rest p with
      | Some buf => Some buf
      | None =>
          let q := os_path.join cache_dir (crop_filename name i image_ext) in
          if String.eqb p q && FS.writable fs q then
            match imwrite_encode q crop with
            | inr (Some buf) => Some buf
            | _ => None
            end
          else None
      end
  end.

Definition is_EvCropper (e : event) : bool :=
  match e with EvCropper _ => true | _ => false end.

Definition is_EvFromfile (e : event) : bool :=
  match e with EvFromfile _ => true | _ => false end.

Definition is_write_event (e : event) : bool :=
  match e with
  | EvImwrite _ _ | EvTofile _ _ | EvRename _ _ | EvMakedirs _ => true
  | _ => false
  end.

End Views.

(** ** A worked scenario

    A small codec and filesystem on which the operations can be run: an
    image is its bytes, decoding fails on an empty buffer, [".jpg"] encodes
    successfully, [".bad"] is an extension for which the encoder returns
    [False] and no array, other extensions have no encoder, and
    [cv2.imwrite] refuses an empty image.  Everything lies on one
    device, except in [two_devices], where [/mnt] and what is below it
    lie on another. *)

Module Scenario.
Import Stdlib.Init.Byte.

#[export] Instance one_device : Mounts := {| device := fun _ => 0 |}.

Definition two_devices : Mounts :=
  {| device := fun d => if String.prefix "/mnt" d then 1 else 0 |}.

#[export] Instance cv2_toy : Cv2 := {|
  ndarray := bytes;
  imdecode := fun buf => match buf with
                         | [] => inl cv2_error
                         | _ => inr buf
                         end;
  cv2_imencode := fun ext img =>
                    if String.eqb ext ".jpg" then inr (true, Some img)
                    else if String.eqb ext ".bad" then inr (false, None)
                    else inl cv2_error;
  imwrite_encode := fun filename img => match img with
                                        | [] => inl cv2_error
                                        | _ => inr (Some img)
                                        end
|}.

(** A cropper that cuts every image into the same four crops. *)
Definition split_into_4 : cropper :=
  fun _ => inr [[x00]; [x01]; [x02]; [x03]].

Definition invert : ndarray -> ndarray :=
  List.map (fun b => match b with x2a => xd5 | _ => b end).

Definition double : ndarray -> ndarray := fun img => img ++ img.

Definition fs0 : filesystem :=
  {| files := {[ "/in/cat.jpg" := [x2a] ]}; dirs := {[ "/in"; "/out" ]} |}.

Definition w0 : world := mk_world fs0 [].

Definition cat : ImageSource := PathImageSource "/in/cat.jpg" None None.

(** A cache in which a previous run has left [cat_2.jpg]. *)
Definition fs_warm : filesystem :=
  {| files := {[ "/in/cat.jpg" := [x2a]; "/cache/cat_2.jpg" := [x02] ]};
     dirs := {[ "/in"; "/out"; "/cache" ]} |}.

(** A cache in which a previous run has left [cat_0.jpg]. *)
Definition fs_stale : filesystem :=
  {| files := {[ "/in/cat.jpg" := [x2a]; "/cache/cat_0.jpg" := [xff] ]};
     dirs := {[ "/in"; "/out"; "/cache" ]} |}.

Definition split_into_2 : cropper := fun _ => inr [[x00]; [x01]].

(** A cache in which [cat_0.jpg] is a directory. *)
Definition fs_blocked : filesystem :=
  {| files := {[ "/in/cat.jpg" := [x2a] ]};
     dirs := {[ "/in"; "/out"; "/cache"; "/cache/cat_0.jpg" ]} |}.

(** The warm cache, with an output directory on the other device. *)
Definition fs_mnt : filesystem :=
  {| files := files fs_warm; dirs := dirs fs_warm ∪ {[ "/mnt" ]} |}.

(** A cropper that finds nothing to cut out. *)
Definition split_into_0 : cropper := fun _ => inr [].

(** The filesystem once [/cache] has been made in [fs0]. *)
Definition fs0_cache : filesystem :=
  {| files := files fs0;
     dirs := dirs fs0 ∪ list_to_set (FS.ancestors "/cache") |}.

(** The four crop sources of [cat.jpg], in two orders; the indices of the
    second list are not the positions in the names. *)
Definition cats : list (Z * string) :=
  [(1%Z, "cat_1"); (0%Z, "cat_0"); (3%Z, "cat_3"); (2%Z, "cat_2")].

Definition cats' : list (Z * string) :=
  [(7%Z, "cat_2"); (7%Z, "cat_3"); (7%Z, "cat_0"); (7%Z, "cat_1")].

End Scenario.

(** ** Groups of crop sources *)

Section Groups.
Context `{Cv2} `{Mounts}.

(** The crop sources over one original image and one cropper, given by
    their indices and names. *)
Definition crop_group (orig : ImageSource) (c : cropper)
    (members : list (Z * string)) : list ImageSource :=
  List.map (fun m => CropImageSource orig (fst m) c (snd m)) members.

End Groups.

(** ** The calls of the saves that find their cache entry *)

Section GroupEvents.
Context `{Cv2} `{Mounts}.

(** What the saves of the sources named [names] call when each of them
    finds its cache entry: makedirs and rename, source after source. *)
Definition move_events (cache_dir save_dir image_ext : string)
    (names : list string) : list event :=
  flat_map (fun n =>
              [EvMakedirs cache_dir;
               EvRename (os_path.join cache_dir (n +:+ image_ext))
                        (os_path.join save_dir (n +:+ image_ext))])
           names.

Definition is_EvRename (e : event) : bool :=
  match e with EvRename _ _ => true | _ => false end.

End GroupEvents.

(** * Properties *)

(** ** The string and path functions on known values

    The values are those that CPython returns. *)

Example splitext_last_dot :
  os_path.splitext "/a.b/c.tar.gz" = ("/a.b/c.tar", ".gz").
Proof. reflexivity. Qed.

Example splitext_dot_in_directory : os_path.splitext "/a.b/c" = ("/a.b/c", "").
Proof. reflexivity. Qed.

Example splitext_leading_dot : os_path.splitext ".bashrc" = (".bashrc", "").
Proof. reflexivity. Qed.

Example splitext_leading_dots : os_path.splitext "..x" = ("..x", "").
Proof. reflexivity. Qed.

Example splitext_trailing_dot : os_path.splitext "a." = ("a", ".").
Proof. reflexivity. Qed.

Example split_strips_slashes : os_path.split "/a/b//c" = ("/a/b", "c").
Proof. reflexivity. Qed.

Example split_keeps_root : os_path.split "//c" = ("//", "c").
Proof. reflexivity. Qed.

Example split_trailing_slash : os_path.split "/a/b/" = ("/a/b", "").
Proof. reflexivity. Qed.

Example join_inserts_slash :
  os_path.join "/cache" "cat_2.jpg" = "/cache/cat_2.jpg".
Proof. reflexivity. Qed.

Example join_after_slash :
  os_path.join "/cache/" "cat_2.jpg" = "/cache/cat_2.jpg".
Proof. reflexivity. Qed.

Example join_absolute_second :
  os_path.join "/cache/" "/cat_2.jpg" = "/cat_2.jpg".
Proof. reflexivity. Qed.

Example join_empty_first : os_path.join "" "cat_2.jpg" = "cat_2.jpg".
Proof. reflexivity. Qed.

Example split_underscores :
  PyStr.split "_" "a_b__c_" = ["a"; "b"; ""; "c"; ""].
Proof. reflexivity. Qed.

Example str_decimal : PyStr.str 120 = "120".
Proof. reflexivity. Qed.

Example rstrip_slashes : PyStr.rstrip "/" "/a//" = "/a".
Proof. reflexivity. Qed.

Example ancestors_of_nested :
  FS.ancestors "/a/b/" = ["/a"; "/a/b"; "/a/b"].
Proof. reflexivity. Qed.

(** ** The effect monad *)

Section MonadFacts.
Context `{Cv2} `{Mounts}.

Lemma bind_inv_inr {A B} (m : M A) (k : A -> M B) w b w2 :
  bind m k w = (inr b, w2) ->
  exists a w1, m w = (inr a, w1) /\ k a w1 = (inr b, w2).
Proof.
  unfold bind. destruct (m w) as [[e|a] w1]; intros Hk; [discriminate|].
  now exists a, w1.
Qed.

Lemma add_event_fs e w : w_fs (add_event e w) = w_fs w.
Proof. reflexivity. Qed.

End MonadFacts.

(** ** Reading *)

Section ReadFacts.
Context `{Cv2} `{Mounts}.

Lemma pipeline_cons fn fns img :
  pipeline (fn :: fns) img =
  match fn img with
  | inr x => pipeline fns x
  | inl e => inl e
  end.
Proof.
  unfold pipeline. simpl. destruct (fn img) as [e|x]; [|reflexivity].
  induction fns as [|g gs IH]; simpl; [reflexivity|exact IH].
Qed.

Lemma apply_fns_eq fns img w :
  apply_fns fns img w = (pipeline fns img, w).
Proof.
  revert img. induction fns as [|fn fns IH]; intros img; [reflexivity|].
  rewrite pipeline_cons. simpl. unfold bind, lift.
  destruct (fn img) as [e|x]; [reflexivity|apply IH].
Qed.

Lemma pipeline_total (gs : list (ndarray -> ndarray)) img :
  pipeline (List.map total gs) img = inr (fold_left (fun x g => g x) gs img).
Proof.
  revert img. induction gs as [|g gs IH]; intros img; [reflexivity|].
  simpl List.map. rewrite pipeline_cons. unfold total at 1. simpl. apply IH.
Qed.

(** [read] returns what the file under the source decodes to, piped
    through the preprocessing chain, and leaves one event behind. *)
Lemma read_eq s w :
  read s w = (read_result s (w_fs w), add_event (EvFromfile (root_path s)) w).
Proof.
  induction s as [path fns n|orig IH idx c n].
  - unfold read_result. simpl. unfold bind, np_fromfile, log, get_fs, bind.
    simpl. destruct (files (w_fs w) !! path) as [buf|]; [|reflexivity].
    unfold ret, lift. destruct (imdecode buf) as [e|img]; [reflexivity|].
    apply apply_fns_eq.
  - simpl. unfold bind. rewrite IH. unfold read_result. simpl.
    destruct (files (w_fs w) !! root_path orig) as [buf|]; [|reflexivity].
    destruct (imdecode buf) as [e|img]; [reflexivity|].
    destruct (pipeline (root_fns orig) img); reflexivity.
Qed.

Lemma read_CropSource orig idx c n w :
  read (CropSource orig idx c n) w = read orig w.
Proof. now rewrite !read_eq. Qed.

End ReadFacts.

(** ** The filesystem *)

Section FSFacts.
Context `{Mounts}.

Lemma parent_error_None fs p :
  FS.parent_error fs p = None <-> FS.reachable fs p = true.
Proof.
  unfold FS.parent_error. destruct (FS.reachable fs p); [tauto|].
  split; [|discriminate].
  destruct (String.eqb p ""); [discriminate|].
  destruct (existsb _ _); discriminate.
Qed.

Lemma parent_error_OSError fs p e :
  FS.parent_error fs p = Some e -> is_OSError e = true.
Proof.
  unfold FS.parent_error. intros Hp.
  repeat match type of Hp with
         | (if ?b then _ else _) = _ => destruct b
         end; try discriminate; now injection Hp as <-.
Qed.

Lemma writable_reachable fs p :
  FS.writable fs p = FS.reachable fs p && negb (FS.isdir fs p).
Proof.
  unfold FS.writable, FS.reachable.
  destruct (String.eqb p ""), (FS.isdir fs p),
    (String.eqb (os_path.dirname p) "" || FS.isdir fs (os_path.dirname p));
    reflexivity.
Qed.

Lemma write_error_None fs p :
  FS.write_error fs p = None <-> FS.writable fs p = true.
Proof.
  rewrite writable_reachable. unfold FS.write_error.
  destruct (FS.parent_error fs p) as [e|] eqn:Hp.
  - split; [discriminate|]. intros Hw. apply andb_true_iff in Hw as [Hr _].
    apply parent_error_None in Hr. congruence.
  - apply parent_error_None in Hp. rewrite Hp.
    destruct (FS.isdir fs p); simpl; split; congruence.
Qed.

Lemma write_error_OSError fs p e :
  FS.write_error fs p = Some e -> is_OSError e = true.
Proof.
  unfold FS.write_error.
  destruct (FS.parent_error fs p) as [e0|] eqn:Hp.
  - intros [= <-]. exact (parent_error_OSError _ _ _ Hp).
  - destruct (FS.isdir fs p); [|discriminate]. now intros [= <-].
Qed.

Lemma isdir_dirs fs fs' p :
  dirs fs = dirs fs' -> FS.isdir fs p = FS.isdir fs' p.
Proof. intros Hd. unfold FS.isdir. now rewrite Hd. Qed.

Lemma writable_dirs fs fs' p :
  dirs fs = dirs fs' -> FS.writable fs p = FS.writable fs' p.
Proof.
  intros Hd. unfold FS.writable.
  now rewrite (isdir_dirs fs fs' p Hd), (isdir_dirs fs fs' _ Hd).
Qed.

Lemma isdir_mono fs fs' p :
  dirs fs ⊆ dirs fs' -> FS.isdir fs p = true -> FS.isdir fs' p = true.
Proof.
  intros Hsub. unfold FS.isdir.
  destruct (String.eqb (PyStr.rstrip os_path.sep p) ""); [tauto|].
  rewrite !bool_decide_eq_true. apply Hsub.
Qed.

Lemma makedirs_inr p fs fs' :
  FS.makedirs p fs = inr fs' ->
  files fs' = files fs /\
  dirs fs' = dirs fs ∪ list_to_set (FS.ancestors p).
Proof.
  unfold FS.makedirs. destruct (String.eqb p ""); [discriminate|].
  destruct (FS.isfile fs _); [discriminate|].
  destruct (existsb _ _); [discriminate|].
  intros [= <-]. split; reflexivity.
Qed.

Lemma makedirs_exists p fs fs' q :
  FS.makedirs p fs = inr fs' ->
  FS.path_exists fs q = true -> FS.path_exists fs' q = true.
Proof.
  intros Hmk. destruct (makedirs_inr _ _ _ Hmk) as [Hf Hd].
  unfold FS.path_exists, FS.isfile. rewrite Hf.
  rewrite !orb_true_iff. intros [Hq|Hq]; [now left|right].
  apply (isdir_mono fs); [|exact Hq]. rewrite Hd. apply union_subseteq_l.
Qed.

(** Creating the cache directory a second time changes nothing. *)
Lemma makedirs_again p fs fs1 fs2 fs3 :
  FS.makedirs p fs = inr fs1 ->
  dirs fs2 = dirs fs1 ->
  FS.makedirs p fs2 = inr fs3 ->
  files fs3 = files fs2 /\ dirs fs3 = dirs fs1.
Proof.
  intros H1 Hd H3.
  destruct (makedirs_inr _ _ _ H1) as [_ Hd1].
  destruct (makedirs_inr _ _ _ H3) as [Hf3 Hd3].
  split; [exact Hf3|]. rewrite Hd3, Hd, Hd1.
  now rewrite <- (assoc_L (∪)), (idemp_L (∪)).
Qed.

Lemma reachable_dirs fs fs' p :
  dirs fs = dirs fs' -> FS.reachable fs p = FS.reachable fs' p.
Proof.
  intros Hd. unfold FS.reachable. now rewrite (isdir_dirs fs fs' _ Hd).
Qed.

(** Nothing stops the rename early exactly when both parents are
    directories on one device. *)
Lemma rename_blocked_None fs src dst :
  FS.rename_blocked fs src dst = None <->
  FS.reachable fs src = true /\ FS.reachable fs dst = true /\
  device (os_path.dirname src) = device (os_path.dirname dst).
Proof.
  unfold FS.rename_blocked.
  destruct (FS.parent_error fs src) as [e|] eqn:Hs.
  - split; [discriminate|]. intros [Hr _].
    apply parent_error_None in Hr. congruence.
  - apply parent_error_None in Hs.
    destruct (FS.parent_error fs dst) as [e|] eqn:Hd.
    + split; [discriminate|]. intros (_ & Hr & _).
      apply parent_error_None in Hr. congruence.
    + apply parent_error_None in Hd.
      destruct (Nat.eqb _ _) eqn:Hdev.
      * apply Nat.eqb_eq in Hdev. tauto.
      * apply Nat.eqb_neq in Hdev. split; [discriminate|tauto].
Qed.

Lemma rename_blocked_OSError fs src dst e :
  FS.rename_blocked fs src dst = Some e -> is_OSError e = true.
Proof.
  unfold FS.rename_blocked.
  destruct (FS.parent_error fs src) as [e1|] eqn:Hs.
  - intros [= <-]. exact (parent_error_OSError _ _ _ Hs).
  - destruct (FS.parent_error fs dst) as [e2|] eqn:Hd.
    + intros [= <-]. exact (parent_error_OSError _ _ _ Hd).
    + destruct (Nat.eqb _ _); [discriminate|]. now intros [= <-].
Qed.

Lemma rename_blocked_dirs fs fs' src dst :
  dirs fs = dirs fs' ->
  FS.rename_blocked fs src dst = None ->
  FS.rename_blocked fs' src dst = None.
Proof.
  intros Hd. rewrite !rename_blocked_None.
  now rewrite (reachable_dirs fs fs' src Hd), (reachable_dirs fs fs' dst Hd).
Qed.

(** A destination that [os.rename] accepts could also be opened for
    writing. *)
Lemma rename_ok_writable fs src dst :
  FS.rename_blocked fs src dst = None ->
  FS.isdir fs dst = false ->
  FS.writable fs dst = true.
Proof.
  rewrite rename_blocked_None. intros (_ & Hr & _) Hd.
  unfold FS.reachable in Hr. unfold FS.writable. rewrite Hd.
  apply andb_true_iff in Hr as [Hne Hp]. now rewrite Hne, Hp.
Qed.

(** The rename of a regular file. *)
Lemma rename_file src dst fs buf :
  files fs !! src = Some buf ->
  FS.rename src dst fs =
  match FS.rename_blocked fs src dst with
  | Some e => inl e
  | None =>
      if FS.isdir fs dst then inl IsADirectoryError
      else inr {| files := <[dst := buf]> (delete src (files fs));
                  dirs := dirs fs |}
  end.
Proof. intros Hsrc. unfold FS.rename. now rewrite Hsrc. Qed.

Lemma rename_file_inr src dst fs buf fs' :
  files fs !! src = Some buf ->
  FS.rename src dst fs = inr fs' ->
  FS.rename_blocked fs src dst = None /\ FS.isdir fs dst = false /\
  fs' = {| files := <[dst := buf]> (delete src (files fs));
           dirs := dirs fs |}.
Proof.
  intros Hsrc. rewrite (rename_file _ _ _ _ Hsrc).
  destruct (FS.rename_blocked fs src dst); [discriminate|].
  destruct (FS.isdir fs dst); [discriminate|]. now intros [= <-].
Qed.

(** The rename of a path at which there is nothing. *)
Lemma rename_missing src dst fs :
  FS.path_exists fs src = false ->
  FS.rename src dst fs =
  inl (match FS.rename_blocked fs src dst with
       | Some e => e
       | None => FileNotFoundError
       end).
Proof.
  unfold FS.path_exists, FS.isfile. rewrite orb_false_iff.
  intros [Hf Hd]. apply bool_decide_eq_false in Hf.
  unfold FS.rename.
  destruct (FS.rename_blocked fs src dst); [reflexivity|].
  destruct (files fs !! src) as [buf|] eqn:Hsrc; [destruct Hf; eauto|].
  now rewrite Hd.
Qed.

Lemma rename_missing_OSError src dst fs :
  FS.path_exists fs src = false ->
  exists e, FS.rename src dst fs = inl e /\ is_OSError e = true.
Proof.
  intros Hm. rewrite (rename_missing _ _ _ Hm).
  destruct (FS.rename_blocked fs src dst) as [e|] eqn:Hb.
  - exists e. split; [reflexivity|]. exact (rename_blocked_OSError _ _ _ _ Hb).
  - now exists FileNotFoundError.
Qed.

Lemma path_exists_false fs p :
  FS.path_exists fs p = false <->
  files fs !! p = None /\ FS.isdir fs p = false.
Proof.
  unfold FS.path_exists, FS.isfile. rewrite orb_false_iff.
  rewrite bool_decide_eq_false, <- eq_None_not_Some. tauto.
Qed.

End FSFacts.

(** ** The steps of [CropImageSource.save] *)

Section SaveFacts.
Context `{Cv2} `{Mounts}.

Lemma os_rename_eq src dst w :
  os_rename src dst w =
  match FS.rename src dst (w_fs w) with
  | inl e => (inl e, add_event (EvRename src dst) w)
  | inr fs' => (inr tt, mk_world fs' (w_trace w ++ [EvRename src dst]))
  end.
Proof.
  unfold os_rename, fs_step, bind, log, get_fs. simpl.
  destruct (FS.rename src dst (w_fs w)); reflexivity.
Qed.

Lemma os_makedirs_eq p w :
  os_makedirs p w =
  match FS.makedirs p (w_fs w) with
  | inl e => (inl e, add_event (EvMakedirs p) w)
  | inr fs' => (inr tt, mk_world fs' (w_trace w ++ [EvMakedirs p]))
  end.
Proof.
  unfold os_makedirs, fs_step, bind, log, get_fs. simpl.
  destruct (FS.makedirs p (w_fs w)); reflexivity.
Qed.

Lemma cv2_imwrite_eq p img w :
  cv2_imwrite p img w =
  match imwrite_encode p img with
  | inl e => (inl e, add_event (EvImwrite p img) w)
  | inr r =>
      (inr (match r with
            | Some _ => FS.writable (w_fs w) p
            | None => false
            end),
       mk_world (imwrite_fs p img (w_fs w)) (w_trace w ++ [EvImwrite p img]))
  end.
Proof.
  unfold cv2_imwrite, imwrite_fs, bind, log, get_fs. simpl.
  destruct (imwrite_encode p img) as [e|[buf|]]; try reflexivity.
  simpl. destruct (FS.writable (w_fs w) p) eqn:Hw.
  - apply write_error_None in Hw. now rewrite Hw.
  - destruct (FS.write_error (w_fs w) p) eqn:He; [reflexivity|].
    apply write_error_None in He. congruence.
Qed.

Lemma write_crops_ok cache n ext crops : forall i w,
  encodes_all cache n ext i crops = true ->
  write_crops cache n ext i crops w =
  (inr tt, mk_world (populate_fs cache n ext i crops (w_fs w))
                    (w_trace w ++ imwrite_events cache n ext i crops)).
Proof.
  induction crops as [|crop rest IH]; intros i w Henc.
  - simpl. unfold ret. rewrite app_nil_r. now destruct w.
  - simpl in *. unfold bind. rewrite cv2_imwrite_eq.
    destruct (imwrite_encode _ crop) as [e|r]; [discriminate|].
    rewrite (IH _ _ Henc). simpl. now rewrite <- app_assoc.
Qed.

Lemma write_crops_raises cache n ext crops : forall i w,
  encodes_all cache n ext i crops = false ->
  exists e w', write_crops cache n ext i crops w = (inl e, w').
Proof.
  induction crops as [|crop rest IH]; intros i w Henc; [discriminate|].
  simpl in *. unfold bind. rewrite cv2_imwrite_eq.
  destruct (imwrite_encode _ crop) as [e|r]; [now eauto|].
  apply IH, Henc.
Qed.

(** [_write] in terms of what it has in hand after the encoding. *)
Lemma _write_eq path img w :
  _write path img w =
  match imencode (snd (os_path.splitext (snd (os_path.split path)))) img with
  | inl e => (inl e, w)
  | inr (_, buf) => tofile buf path w
  end.
Proof.
  unfold _write, imencode, bind, lift, raise.
  destruct (cv2_imencode _ img) as [e|[ok [buf|]]]; reflexivity.
Qed.

(** [PathImageSource.save], step by step. *)
Lemma save_path_eq p fns nm sd ext cache w :
  save (PathSource p fns nm) sd ext cache w =
  let path := os_path.join sd (nm +:+ ext) in
  let w1 := add_event (EvFromfile p) w in
  match read_result (PathSource p fns nm) (w_fs w) with
  | inl e => (inl e, w1)
  | inr img =>
      match imencode (snd (os_path.splitext (snd (os_path.split path)))) img with
      | inl e => (inl e, w1)
      | inr (_, buf) =>
          match FS.write_error (w_fs w) path with
          | Some e => (inl e, add_event (EvTofile path buf) w1)
          | None =>
              (inr tt,
               mk_world (FS.write_file path buf (w_fs w))
                        (w_trace w ++ [EvFromfile p; EvTofile path buf]))
          end
      end
  end.
Proof.
  unfold save, PathImageSource_save. unfold bind at 1. rewrite read_eq.
  simpl name. simpl root_path.
  destruct (read_result (PathSource p fns nm) (w_fs w)) as [e|img];
    [reflexivity|].
  rewrite _write_eq.
  destruct (imencode _ img) as [e|[ok buf]]; [reflexivity|].
  unfold tofile, bind, log, get_fs. rewrite !add_event_fs.
  destruct (FS.write_error (w_fs w) _) as [e|]; [reflexivity|].
  unfold put_fs. simpl. now rewrite <- app_assoc.
Qed.

(** The cached branch of [CropImageSource.save], step by step. *)
Lemma save_cached_eq orig idx c n sd ext cache w :
  save (CropImageSource orig idx c n) sd ext (Some cache) w =
  let key := os_path.join cache (n +:+ ext) in
  let out := os_path.join sd (n +:+ ext) in
  match FS.makedirs cache (w_fs w) with
  | inl e => (inl e, add_event (EvMakedirs cache) w)
  | inr fs1 =>
      let w1 := mk_world fs1 (w_trace w ++ [EvMakedirs cache]) in
      if FS.path_exists fs1 key then os_rename key out w1
      else
        let w2 := add_event (EvFromfile (root_path orig)) w1 in
        match read_result orig fs1 with
        | inl e => (inl e, w2)
        | inr img =>
            match c img with
            | inl e => (inl e, add_event (EvCropper img) w2)
            | inr crops =>
                match write_crops cache n ext 0 crops
                                  (add_event (EvCropper img) w2) with
                | (inr _, w3) => os_rename key out w3
                | (inl e, w3) => (inl e, w3)
                end
            end
        end
  end.
Proof.
  unfold CropImageSource. simpl. unfold CropImageSource_save.
  unfold bind at 1. rewrite os_makedirs_eq.
  destruct (FS.makedirs cache (w_fs w)) as [e|fs1]; [reflexivity|].
  unfold bind at 1. unfold os_path_exists at 1, bind at 1, get_fs, ret.
  simpl w_fs.
  destruct (FS.path_exists fs1 _); simpl negb; cbv iota.
  - reflexivity.
  - unfold bind at 1. unfold bind at 1. unfold bind at 1.
    rewrite read_eq. simpl w_fs.
    destruct (read_result orig fs1) as [e|img]; [reflexivity|].
    unfold bind at 1. unfold call_cropper, bind at 1, log, lift.
    destruct (c img) as [e|crops]; [reflexivity|].
    destruct (write_crops _ _ _ _ _ _) as [[e|[]] w3]; reflexivity.
Qed.

End SaveFacts.

(** ** Strings and paths *)

Section StrFacts.
Implicit Types (s t u : string) (a c : ascii) (l : list string).

Lemma str_app_cons a s t : String a s +:+ t = String a (s +:+ t).
Proof. reflexivity. Qed.

Lemma str_app_nil_r s : s +:+ "" = s.
Proof. induction s as [|a s IH]; [reflexivity|]. now rewrite str_app_cons, IH. Qed.

Lemma str_app_assoc s t u : (s +:+ t) +:+ u = s +:+ (t +:+ u).
Proof.
  induction s as [|a s IH]; [reflexivity|]. now rewrite !str_app_cons, IH.
Qed.

Lemma str_length_app s t :
  String.length (s +:+ t) = String.length s + String.length t.
Proof.
  induction s as [|a s IH]; [reflexivity|]. rewrite str_app_cons. simpl.
  now rewrite IH.
Qed.

Lemma str_app_inv_tail s t u : s +:+ u = t +:+ u -> s = t.
Proof.
  revert t. induction s as [|a s IH]; intros [|b t] Heq.
  - reflexivity.
  - apply (f_equal String.length) in Heq.
    rewrite !str_length_app in Heq. simpl in Heq. lia.
  - apply (f_equal String.length) in Heq.
    rewrite !str_length_app in Heq. simpl in Heq. lia.
  - rewrite !str_app_cons in Heq. injection Heq as -> Heq.
    f_equal. now apply IH.
Qed.

Lemma str_app_inv_head s t u : s +:+ t = s +:+ u -> t = u.
Proof.
  induction s as [|a s IH]; [easy|]. rewrite !str_app_cons.
  intros [= Heq]. now apply IH.
Qed.

Lemma contains_app c s t :
  PyStr.contains c (s +:+ t) = PyStr.contains c s || PyStr.contains c t.
Proof.
  induction s as [|a s IH]; [reflexivity|]. rewrite str_app_cons. simpl.
  now rewrite IH, orb_assoc.
Qed.

Lemma startswith_app c s t :
  PyStr.startswith c (s +:+ t) =
  match s with
  | EmptyString => PyStr.startswith c t
  | _ => PyStr.startswith c s
  end.
Proof. destruct s; reflexivity. Qed.

(** Whether [s +:+ String a t] starts with [c] does not depend on [t]. *)
Lemma startswith_app_cons c s a t t' :
  PyStr.startswith c (s +:+ String a t) = PyStr.startswith c (s +:+ String a t').
Proof. rewrite !startswith_app. destruct s; reflexivity. Qed.

Lemma split_nonempty c s : PyStr.split c s <> [].
Proof.
  destruct s as [|a s]; simpl; [easy|].
  destruct (Ascii.eqb a c); [easy|]. destruct (PyStr.split c s); easy.
Qed.

Lemma join_cons_cons c a s l :
  PyStr.join c (String a s :: l) = String a (PyStr.join c (s :: l)).
Proof. destruct l; reflexivity. Qed.

Lemma join_cons c s t l :
  PyStr.join c (s :: t :: l) = s +:+ String c (PyStr.join c (t :: l)).
Proof. reflexivity. Qed.

(** Joining what was split gives the string back. *)
Lemma split_join c s : PyStr.join c (PyStr.split c s) = s.
Proof.
  induction s as [|a s IH]; [reflexivity|]. simpl.
  destruct (Ascii.eqb_spec a c) as [->|Hne].
  - pose proof (split_nonempty c s) as Hs.
    destruct (PyStr.split c s) as [|h t]; [easy|].
    rewrite join_cons, IH. reflexivity.
  - pose proof (split_nonempty c s) as Hs.
    destruct (PyStr.split c s) as [|h t]; [easy|].
    now rewrite join_cons_cons, IH.
Qed.

(** No segment of a split contains the separator. *)
Lemma split_no_sep c s :
  Forall (fun x => PyStr.contains c x = false) (PyStr.split c s).
Proof.
  induction s as [|a s IH]; simpl; [now repeat constructor|].
  destruct (Ascii.eqb a c) eqn:Hac; [now constructor|].
  destruct (PyStr.split c s) as [|h t]; [repeat constructor; simpl; now rewrite Hac|].
  inversion IH as [|? ? Hh Ht]; subst. constructor; [|exact Ht].
  simpl. now rewrite Hac, Hh.
Qed.

Lemma split_single c s : PyStr.contains c s = false -> PyStr.split c s = [s].
Proof.
  induction s as [|a s IH]; [reflexivity|]. simpl.
  destruct (Ascii.eqb a c); [discriminate|]. simpl. intros Hs.
  now rewrite (IH Hs).
Qed.

Lemma split_app_sep c s t :
  PyStr.split c (s +:+ String c t) = PyStr.split c s ++ PyStr.split c t.
Proof.
  induction s as [|a s IH].
  - simpl. now rewrite Ascii.eqb_refl.
  - rewrite str_app_cons. simpl. destruct (Ascii.eqb a c); [now rewrite IH|].
    rewrite IH. pose proof (split_nonempty c s) as Hs.
    destruct (PyStr.split c s) as [|h l]; [easy|reflexivity].
Qed.

Lemma join_snoc c l s :
  l <> [] -> PyStr.join c (l ++ [s]) = PyStr.join c l +:+ String c s.
Proof.
  induction l as [|x l IH]; [easy|]. intros _.
  destruct l as [|y l]; [reflexivity|].
  change ((x :: y :: l) ++ [s]) with (x :: (y :: l) ++ [s]).
  simpl app. rewrite !join_cons.
  change (y :: l ++ [s]) with ((y :: l) ++ [s]).
  rewrite IH by easy. now rewrite str_app_assoc, str_app_cons.
Qed.

(** A string is what precedes its last separator, that separator, and its
    last segment. *)
Lemma split_last_decomp c s :
  s = match removelast (PyStr.split c s) with
      | [] => ""
      | init => PyStr.join c init +:+ String c ""
      end +:+ List.last (PyStr.split c s) "".
Proof.
  pose proof (split_join c s) as Hj.
  pose proof (split_nonempty c s) as Hne.
  rewrite (app_removelast_last "" Hne) in Hj.
  destruct (removelast (PyStr.split c s)) as [|x l] eqn:Hr.
  - simpl in Hj. now rewrite <- Hj at 1.
  - rewrite join_snoc in Hj by easy.
    rewrite str_app_assoc, str_app_cons. simpl. now rewrite <- Hj at 1.
Qed.

Lemma last_split_no_sep c s :
  PyStr.contains c (List.last (PyStr.split c s) "") = false.
Proof.
  pose proof (split_no_sep c s) as Hall.
  pose proof (split_nonempty c s) as Hne.
  rewrite (app_removelast_last "" Hne) in Hall.
  apply Forall_app in Hall as [_ Hl]. now inversion Hl.
Qed.

(** Dropping the last segment of [b_seg], where [seg] has no underscore,
    leaves [b]. *)
Lemma join_removelast_split c b seg :
  PyStr.contains c seg = false ->
  PyStr.join c (removelast (PyStr.split c (b +:+ String c seg))) = b.
Proof.
  intros Hseg. rewrite split_app_sep, (split_single _ _ Hseg).
  rewrite removelast_last. apply split_join.
Qed.

Lemma removelast_split_single c s :
  PyStr.contains c s = false -> removelast (PyStr.split c s) = [].
Proof. intros Hs. now rewrite (split_single _ _ Hs). Qed.

End StrFacts.

Section PathFacts.
Implicit Types (p s t : string).

(** What [os.path.join] puts in front of a relative second argument. *)
Lemma join_relative a b :
  PyStr.startswith os_path.sep b = false ->
  os_path.join a b =
  (if String.eqb a "" || PyStr.endswith os_path.sep a then a else a +:+ "/")
    +:+ b.
Proof.
  intros Hb. unfold os_path.join. rewrite Hb.
  destruct (String.eqb a "" || PyStr.endswith os_path.sep a); [reflexivity|].
  now rewrite str_app_assoc.
Qed.

Lemma join_absolute a b :
  PyStr.startswith os_path.sep b = true -> os_path.join a b = b.
Proof. intros Hb. unfold os_path.join. now rewrite Hb. Qed.

(** Two second arguments that are both absolute or both relative are
    joined to the same path only if they are equal. *)
Lemma join_inj a b b' :
  PyStr.startswith os_path.sep b = PyStr.startswith os_path.sep b' ->
  os_path.join a b = os_path.join a b' -> b = b'.
Proof.
  intros Hsw. destruct (PyStr.startswith os_path.sep b') eqn:Hb'.
  - now rewrite !join_absolute.
  - rewrite !join_relative by assumption. apply str_app_inv_head.
Qed.

Lemma endswith_snoc c s : PyStr.endswith c (s +:+ String c "") = true.
Proof.
  induction s as [|a s IH]; [simpl; apply Ascii.eqb_refl|].
  rewrite str_app_cons.
  destruct s as [|b s]; [simpl; apply Ascii.eqb_refl|exact IH].
Qed.

Lemma head_basename p : p = os_path.head p +:+ os_path.basename p.
Proof.
  unfold os_path.head, os_path.basename.
  rewrite (split_last_decomp os_path.sep p) at 1. reflexivity.
Qed.

Lemma basename_no_sep p :
  PyStr.contains os_path.sep (os_path.basename p) = false.
Proof. apply last_split_no_sep. Qed.

Lemma head_ends_with_sep p :
  os_path.head p = "" \/ PyStr.endswith os_path.sep (os_path.head p) = true.
Proof.
  unfold os_path.head.
  destruct (removelast _); [now left|right]. apply endswith_snoc.
Qed.

Lemma basename_of_name s :
  PyStr.contains os_path.sep s = false ->
  os_path.basename s = s /\ os_path.head s = "".
Proof.
  intros Hs. unfold os_path.basename, os_path.head.
  now rewrite (split_single _ _ Hs).
Qed.

(** [splitext] cuts a file name in a stem and an extension that is empty
    or a dot followed by dot-free characters. *)
Lemma splitext_name_spec s :
  let '(r, e) := os_path.splitext_name s in
  s = r +:+ e /\
  (e = "" \/ exists e', e = String os_path.extsep e' /\
                        PyStr.contains os_path.extsep e' = false).
Proof.
  unfold os_path.splitext_name.
  pose proof (split_last_decomp os_path.extsep s) as Hd.
  pose proof (last_split_no_sep os_path.extsep s) as Hl.
  destruct (removelast (PyStr.split os_path.extsep s)) as [|x l].
  - split; [now rewrite str_app_nil_r|now left].
  - destruct (PyStr.all_char _ _).
    + split; [now rewrite str_app_nil_r|now left].
    + split; [|right; eauto].
      rewrite Hd at 1. now rewrite str_app_assoc.
Qed.

(** The derived name of a path: the path is a directory part that is
    empty or ends with a slash, the name, and an extension. *)
Lemma derived_name_spec p :
  let nm := fst (os_path.splitext (os_path.basename p)) in
  exists d e,
    p = d +:+ nm +:+ e /\
    (d = "" \/ PyStr.endswith os_path.sep d = true) /\
    PyStr.contains os_path.sep (nm +:+ e) = false /\
    (e = "" \/ exists e', e = String os_path.extsep e' /\
                          PyStr.contains os_path.extsep e' = false).
Proof.
  pose proof (basename_no_sep p) as Hb.
  destruct (basename_of_name _ Hb) as [Hbb Hbh].
  pose proof (splitext_name_spec (os_path.basename p)) as Hs.
  unfold os_path.splitext. rewrite Hbb, Hbh.
  destruct (os_path.splitext_name (os_path.basename p)) as [r e].
  destruct Hs as [Hre He]. simpl fst. change ("" +:+ r) with r.
  exists (os_path.head p), e. repeat split.
  - rewrite <- Hre. apply head_basename.
  - apply head_ends_with_sep.
  - now rewrite <- Hre.
  - exact He.
Qed.

End PathFacts.

(** ** The populate step *)

Section PopulateFacts.
Context `{Cv2} `{Mounts}.

Lemma crop_filename_eq n j ext :
  crop_filename n j ext =
  PyStr.join "_" (removelast (PyStr.split "_" n))
    +:+ String "_" (PyStr.str j +:+ ext).
Proof. reflexivity. Qed.

(** The crops of one populate step go to pairwise distinct paths. *)
Lemma crop_path_inj cache n ext j j' :
  os_path.join cache (crop_filename n j ext)
    = os_path.join cache (crop_filename n j' ext) ->
  j = j'.
Proof.
  intros Heq. apply join_inj in Heq.
  - rewrite !crop_filename_eq in Heq. apply str_app_inv_head in Heq.
    injection Heq as Heq. apply str_app_inv_tail in Heq.
    unfold PyStr.str in Heq. now apply (inj pretty) in Heq.
  - rewrite !crop_filename_eq. apply startswith_app_cons.
Qed.

(** The cache key is the path of crop [j] only if the name is its own
    base name followed by an underscore and [j] in decimal. *)
Lemma key_eq_crop_path cache n ext j :
  os_path.join cache (n +:+ ext) = os_path.join cache (crop_filename n j ext) ->
  n = PyStr.join "_" (removelast (PyStr.split "_" n)) +:+ "_" +:+ PyStr.str j.
Proof.
  rewrite crop_filename_eq.
  pose proof (split_last_decomp "_" n) as Hn.
  pose proof (last_split_no_sep "_" n) as Hl.
  destruct (removelast (PyStr.split "_" n)) as [|x l] eqn:Hr.
  - change (PyStr.join "_" [] +:+ ?s) with s.
    destruct (PyStr.startswith os_path.sep (n +:+ ext)) eqn:Hsw.
    + rewrite (join_absolute _ _ Hsw), join_relative by reflexivity.
      intros Heq.
      rewrite <- str_app_cons, <- str_app_assoc in Heq.
      apply str_app_inv_tail in Heq.
      change ("" +:+ ?s) with s in Hn. rewrite <- Hn in Hl.
      rewrite Heq, contains_app in Hl. simpl in Hl.
      now rewrite orb_true_r in Hl.
    + intros Heq. apply join_inj in Heq; [|now rewrite Hsw].
      rewrite <- str_app_cons in Heq. now apply str_app_inv_tail in Heq.
  - set (b := PyStr.join "_" (x :: l)) in *.
    rewrite str_app_assoc, str_app_cons in Hn.
    change ("" +:+ ?s) with s in Hn.
    intros Heq. apply join_inj in Heq.
    + change (b +:+ String "_" (PyStr.str j +:+ ext))
        with (b +:+ (String "_" (PyStr.str j) +:+ ext)) in Heq.
      rewrite <- str_app_assoc in Heq. now apply str_app_inv_tail in Heq.
    + rewrite Hn at 1. rewrite str_app_assoc, str_app_cons.
      apply startswith_app_cons.
Qed.

Lemma imwrite_fs_dirs q crop fs : dirs (imwrite_fs q crop fs) = dirs fs.
Proof.
  unfold imwrite_fs. destruct (imwrite_encode q crop) as [e|[buf|]];
    [reflexivity| |reflexivity].
  now destruct (FS.writable fs q).
Qed.

Lemma populate_fs_dirs cache n ext crops : forall i fs,
  dirs (populate_fs cache n ext i crops fs) = dirs fs.
Proof.
  induction crops as [|crop rest IH]; intros i fs; [reflexivity|].
  simpl. now rewrite IH, imwrite_fs_dirs.
Qed.

(** What the loop writes depends on the filesystem it starts from only
    through its directories. *)
Lemma created_dirs fs fs' cache n ext crops p : forall i,
  dirs fs = dirs fs' ->
  created fs cache n ext i crops p = created fs' cache n ext i crops p.
Proof.
  intros i Hd. revert i. induction crops as [|crop rest IH]; intros i;
    [reflexivity|].
  simpl. now rewrite IH, (writable_dirs fs fs' _ Hd).
Qed.

Lemma populate_fs_files cache n ext crops p : forall i fs,
  files (populate_fs cache n ext i crops fs) !! p =
  match created fs cache n ext i crops p with
  | Some buf => Some buf
  | None => files fs !! p
  end.
Proof.
  induction crops as [|crop rest IH]; intros i fs; [reflexivity|].
  simpl. rewrite IH.
  rewrite (created_dirs _ fs) by apply imwrite_fs_dirs.
  destruct (created fs cache n ext (S i) rest p); [reflexivity|].
  unfold imwrite_fs.
  destruct (String.eqb_spec p (os_path.join cache (crop_filename n i ext)))
    as [->|Hne]; simpl.
  - destruct (FS.writable fs _);
      destruct (imwrite_encode _ crop) as [e|[buf|]]; try reflexivity.
    simpl. apply lookup_insert_eq.
  - destruct (imwrite_encode _ crop) as [e|[buf|]]; try reflexivity.
    destruct (FS.writable fs _); [|reflexivity].
    simpl. now apply lookup_insert_ne.
Qed.

Lemma created_inv fs cache n ext crops p buf : forall i,
  created fs cache n ext i crops p = Some buf ->
  exists j crop,
    crops !! j = Some crop /\
    p = os_path.join cache (crop_filename n (i + j) ext) /\
    imwrite_encode p crop = inr (Some buf) /\
    FS.writable fs p = true.
Proof.
  induction crops as [|crop rest IH]; intros i Hc; [discriminate|].
  simpl in Hc.
  destruct (created fs cache n ext (S i) rest p) as [b|] eqn:Hrest.
  - injection Hc as ->. destruct (IH _ Hrest) as (j & cr & Hj & Hp & He & Hw).
    exists (S j), cr. repeat split; try assumption.
    now replace (i + S j) with (S i + j) by lia.
  - destruct (String.eqb_spec p (os_path.join cache (crop_filename n i ext)))
      as [->|Hne]; [|discriminate].
    simpl in Hc. destruct (FS.writable fs _) eqn:Hw; [|discriminate].
    destruct (imwrite_encode _ crop) as [e|[b|]] eqn:He; try discriminate.
    injection Hc as ->. exists 0, crop. rewrite Nat.add_0_r. now repeat split.
Qed.

(** A crop that is encoded and whose file can be opened is on disk when
    the loop ends. *)
Lemma created_at fs cache n ext crops : forall i j crop buf,
  crops !! j = Some crop ->
  imwrite_encode (os_path.join cache (crop_filename n (i + j) ext)) crop
    = inr (Some buf) ->
  FS.writable fs (os_path.join cache (crop_filename n (i + j) ext)) = true ->
  created fs cache n ext i crops
          (os_path.join cache (crop_filename n (i + j) ext)) = Some buf.
Proof.
  induction crops as [|c0 rest IH]; intros i j crop buf Hj He Hw; [easy|].
  destruct j as [|j].
  - injection Hj as ->. rewrite Nat.add_0_r in *. simpl.
    destruct (created fs cache n ext (S i) rest _) as [b|] eqn:Hrest.
    + apply created_inv in Hrest as (j' & _ & _ & Hp & _).
      apply crop_path_inj in Hp. lia.
    + now rewrite String.eqb_refl, Hw, He.
  - pose proof (IH (S i) j crop buf Hj) as IH'.
    replace (S i + j) with (i + S j) in IH' by lia.
    simpl. now rewrite (IH' He Hw).
Qed.

(** On a cold cache the key exists after the loop only if the loop
    wrote it, that is, only if the name ends in the position of one of
    the crops. *)
Lemma key_after_populate cache n ext crops fs1 :
  FS.path_exists fs1 (os_path.join cache (n +:+ ext)) = false ->
  FS.path_exists (populate_fs cache n ext 0 crops fs1)
                 (os_path.join cache (n +:+ ext)) = true ->
  exists k, k < length crops /\
            n = PyStr.join "_" (removelast (PyStr.split "_" n))
                  +:+ "_" +:+ PyStr.str k.
Proof.
  intros Hcold Hwarm. apply path_exists_false in Hcold as [Hf Hd].
  destruct (path_exists_false (populate_fs cache n ext 0 crops fs1)
              (os_path.join cache (n +:+ ext))) as [_ Hback].
  destruct (created fs1 cache n ext 0 crops (os_path.join cache (n +:+ ext)))
    as [buf|] eqn:Hc.
  - apply created_inv in Hc as (j & crop & Hj & Hp & _).
    exists j. split; [now apply lookup_lt_Some in Hj|].
    now apply key_eq_crop_path in Hp.
  - rewrite Hback in Hwarm; [discriminate|]. split.
    + now rewrite populate_fs_files, Hc.
    + now rewrite (isdir_dirs _ fs1) by apply populate_fs_dirs.
Qed.

(** The loop depends on the name through its base name only. *)
Lemma write_crops_same_base cache n n' ext crops : forall i w,
  PyStr.join "_" (removelast (PyStr.split "_" n))
    = PyStr.join "_" (removelast (PyStr.split "_" n')) ->
  write_crops cache n ext i crops w = write_crops cache n' ext i crops w.
Proof.
  intros i w Hb. revert i w.
  induction crops as [|crop rest IH]; intros i w; [reflexivity|].
  simpl. unfold bind. unfold crop_filename at 1 2. rewrite Hb.
  destruct (cv2_imwrite _ crop w) as [[e|ok] w1]; [reflexivity|apply IH].
Qed.

End PopulateFacts.

(** ** Groups of crop sources saved one after the other *)

Section GroupFacts.
Context `{Cv2} `{Mounts}.
Variables (orig : ImageSource) (c : cropper) (sd ext cache : string).
Variables (fs0 fs1 : filesystem) (img : ndarray) (crops : list ndarray).
Variables (n0 : string) (all : list string).

Let key (n : string) : string := os_path.join cache (n +:+ ext).
Let out (n : string) : string := os_path.join sd (n +:+ ext).
Let base (n : string) : string :=
  PyStr.join "_" (removelast (PyStr.split "_" n)).

Hypothesis Hmk : FS.makedirs cache fs0 = inr fs1.
Hypothesis Hread : read_result orig fs1 = inr img.
Hypothesis Hcrop : c img = inr crops.
Hypothesis Hbase : forall n, In n all -> base n = base n0.
Hypothesis Hsep : forall n m, In n all -> In m all -> key n <> out m.
Hypothesis Hdir : forall n, In n all -> FS.isdir fs1 (key n) = false.
Hypothesis Hroot :
  forall n, In n all -> root_path orig <> out n /\ root_path orig <> key n.

Lemma read_result_ext s fs fs' :
  files fs !! root_path s = files fs' !! root_path s ->
  dirs fs = dirs fs' ->
  read_result s fs = read_result s fs'.
Proof.
  intros Hf Hd. unfold read_result.
  now rewrite Hf, (isdir_dirs fs fs' _ Hd).
Qed.

(** Moving the cache entry of [n] leaves the other entries alone. *)
Lemma moved_lookup (fm : gmap string bytes) n buf p :
  p <> key n -> p <> out n ->
  <[out n := buf]> (delete (key n) fm) !! p = fm !! p.
Proof.
  intros Hk Ho. rewrite lookup_insert_ne by congruence.
  now rewrite lookup_delete_ne by congruence.
Qed.

(** Once the cache is populated, every later save of the group that
    returns finds its cache entry and moves it. *)
Lemma group_tail (pend : list (Z * string)) : forall done fs tr w',
  incl (List.map snd pend) all ->
  incl done all ->
  NoDup (List.map key (List.map snd pend)) ->
  dirs fs = dirs fs1 ->
  files fs !! root_path orig = files fs1 !! root_path orig ->
  (forall n, In n (List.map snd pend) ->
     match created fs1 cache n0 ext 0 crops (key n) with
     | Some _ => is_Some (files fs !! key n)
     | None => files fs !! key n = None
     end) ->
  (forall n, In n done ->
     is_Some (files fs !! out n) /\ files fs !! key n = None) ->
  save_all (crop_group orig c pend) sd ext (Some cache) (mk_world fs tr)
    = (inr tt, w') ->
  dirs (w_fs w') = dirs fs1 /\
  forall n, In n (List.map snd pend) \/ In n done ->
    is_Some (files (w_fs w') !! out n) /\ files (w_fs w') !! key n = None.
Proof.
  induction pend as [|[i n] rest IH];
    intros done fs tr w' Hpend Hdone Hnd Hd Hr Hp Hdn Hrun.
  - injection Hrun as <-. simpl. split; [exact Hd|].
    intros n [[]|Hn]. now apply Hdn.
  - change (save_all (crop_group orig c ((i, n) :: rest)) sd ext (Some cache))
      with (save (CropImageSource orig i c n) sd ext (Some cache) ;;;
            save_all (crop_group orig c rest) sd ext (Some cache)) in Hrun.
    apply bind_inv_inr in Hrun as ([] & w1 & Hsave & Hrun).
    assert (Hn : In n all) by (apply Hpend; now left).
    assert (Hrest : incl (List.map snd rest) all).
    { intros m Hm. apply Hpend. now right. }
    simpl in Hnd. apply NoDup_cons in Hnd as [Hnotin Hnd].
    assert (Hkeys : forall m, In m (List.map snd rest) -> key m <> key n).
    { intros m Hm Heq. apply Hnotin. rewrite <- Heq.
      apply list_elem_of_In. now apply in_map. }
    rewrite save_cached_eq in Hsave. cbv zeta in Hsave. simpl w_fs in Hsave.
    destruct (FS.makedirs cache fs) as [e|fs'] eqn:Hmk'; [discriminate|].
    destruct (makedirs_again _ _ _ _ _ Hmk Hd Hmk') as [Hf' Hd'].
    specialize (Hp n (or_introl eq_refl)) as Hpn.
    fold (key n) (out n) in Hsave.
    destruct (FS.path_exists fs' (key n)) eqn:Hex.
    + (* the entry is there: it is moved *)
      assert (Hfile : is_Some (files fs' !! key n)).
      { unfold FS.path_exists, FS.isfile in Hex.
        rewrite (isdir_dirs fs' fs1 _ Hd'), (Hdir n Hn), orb_false_r in Hex.
        now apply bool_decide_eq_true in Hex. }
      destruct Hfile as [buf Hbuf].
      rewrite os_rename_eq in Hsave. simpl w_fs in Hsave.
      rewrite (rename_file _ _ _ _ Hbuf) in Hsave.
      destruct (FS.rename_blocked fs' (key n) (out n)); [discriminate|].
      destruct (FS.isdir fs' (out n)); [discriminate|].
      injection Hsave as <-.
      destruct (Hroot n Hn) as [Hro Hrk].
      apply (IH (n :: done)) in Hrun; try assumption.
      * destruct Hrun as [Hdw Hall]. split; [exact Hdw|].
        intros m [[<-|Hm]|Hm]; apply Hall; auto; right; [now left|now right].
      * intros m [<-|Hm]; [exact Hn|now apply Hdone].
      * simpl. now rewrite moved_lookup, Hf' by congruence.
      * intros m Hm. simpl.
        rewrite moved_lookup, Hf';
          [now apply Hp; right|now apply Hkeys|now apply Hsep; auto].
      * intros m [<-|Hm]; simpl.
        -- split; [rewrite lookup_insert_eq; eauto|].
           rewrite lookup_insert_ne by (apply not_eq_sym, Hsep; auto).
           apply lookup_delete_eq.
        -- destruct (Hdn m Hm) as [Ho Hk]. split.
           ++ destruct (decide (out n = out m)) as [->|Hne];
                [rewrite lookup_insert_eq; eauto|].
              rewrite lookup_insert_ne by exact Hne.
              rewrite lookup_delete_ne, Hf'; [exact Ho|].
              apply Hsep; auto.
           ++ rewrite lookup_insert_ne by (apply not_eq_sym, Hsep; auto).
              destruct (decide (key n = key m)) as [->|Hne];
                [apply lookup_delete_eq|].
              now rewrite lookup_delete_ne, Hf' by exact Hne.
    + (* the entry is missing: populating again cannot bring it back *)
      exfalso. apply path_exists_false in Hex as [Hnone _].
      rewrite Hf' in Hnone.
      destruct (created fs1 cache n0 ext 0 crops (key n)) as [b|] eqn:Hcr;
        [rewrite Hnone in Hpn; now destruct Hpn|].
      rewrite (read_result_ext orig fs' fs1) in Hsave
        by (rewrite ?Hf'; assumption).
      rewrite Hread, Hcrop in Hsave.
      rewrite (write_crops_same_base cache n n0) in Hsave
        by (apply (Hbase n Hn)).
      destruct (encodes_all cache n0 ext 0 crops) eqn:Henc.
      * rewrite (write_crops_ok _ _ _ _ _ _ Henc), os_rename_eq in Hsave.
        simpl w_fs in Hsave. rewrite rename_missing in Hsave; [discriminate|].
        apply path_exists_false. split.
        -- rewrite populate_fs_files, (created_dirs _ fs1) by exact Hd'.
           now rewrite Hcr, Hf'.
        -- rewrite (isdir_dirs _ fs1); [now apply Hdir|].
           now rewrite populate_fs_dirs.
      * destruct (write_crops_raises cache n0 ext crops 0
                    (add_event (EvCropper img)
                       (add_event (EvFromfile (root_path orig))
                          (mk_world fs' (tr ++ [EvMakedirs cache]))))
                    Henc) as (e & w3 & Hw).
        simpl w_trace in Hsave. rewrite Hw in Hsave. discriminate.
Qed.

End GroupFacts.

(** ** More on paths: what [save] and [__init__] compute from a name *)

Section NameFacts.
Implicit Types (p s t d : string) (c : ascii).

Lemma endswith_inv c s :
  PyStr.endswith c s = true -> exists s', s = s' +:+ String c "".
Proof.
induction s as [|a s IH]; [discriminate|].
destruct s as [|b s].
- simpl. intros Ha. apply Ascii.eqb_eq in Ha as ->. now exists "".
- intros Hs. destruct (IH Hs) as [s' Hs']. exists (String a s').
  now rewrite str_app_cons, <- Hs'.
Qed.

Lemma last_app_nonempty {A} (l1 l2 : list A) (d : A) :
  l2 <> [] -> List.last (l1 ++ l2) d = List.last l2 d.
Proof.
intros Hne. induction l1 as [|x l1 IH]; [reflexivity|].
simpl. destruct (l1 ++ l2) eqn:Happ; [|exact IH].
apply app_eq_nil in Happ as [_ ->]. easy.
Qed.

(** Appending separator-free characters extends the last segment. *)
Lemma split_app_nosep c s t :
  PyStr.contains c t = false ->
  PyStr.split c (s +:+ t) =
  removelast (PyStr.split c s) ++ [List.last (PyStr.split c s) "" +:+ t].
Proof.
intros Ht. induction s as [|a s IH].
- simpl. now apply split_single.
- rewrite str_app_cons. simpl. rewrite IH.
  pose proof (split_nonempty c s) as Hne.
  destruct (Ascii.eqb a c).
  + destruct (PyStr.split c s) as [|h tl]; [easy|]. reflexivity.
  + destruct (PyStr.split c s) as [|h tl]; [easy|].
    destruct tl as [|h' tl]; reflexivity.
Qed.

Lemma basename_app_nosep s t :
  PyStr.contains os_path.sep t = false ->
  os_path.basename (s +:+ t) = os_path.basename s +:+ t.
Proof.
intros Ht. unfold os_path.basename. rewrite (split_app_nosep _ _ _ Ht).
now rewrite last_last.
Qed.

Lemma basename_after_sep d s :
  PyStr.endswith os_path.sep d = true ->
  os_path.basename (d +:+ s) = os_path.basename s.
Proof.
intros Hd. apply endswith_inv in Hd as [d' ->].
rewrite str_app_assoc, str_app_cons. change ("" +:+ s) with s.
unfold os_path.basename. rewrite split_app_sep.
apply last_app_nonempty, split_nonempty.
Qed.

(** The file name of a joined path is the file name of its second part. *)
Lemma basename_join d s :
  os_path.basename (os_path.join d s) = os_path.basename s.
Proof.
unfold os_path.join. destruct (PyStr.startswith os_path.sep s); [reflexivity|].
destruct (String.eqb_spec d "") as [->|Hd]; simpl;
  [reflexivity|].
destruct (PyStr.endswith os_path.sep d) eqn:He.
- now apply basename_after_sep.
- rewrite <- str_app_assoc. apply basename_after_sep, endswith_snoc.
Qed.

Lemma basename_empty p :
  os_path.basename p = "" <-> p = "" \/ PyStr.endswith os_path.sep p = true.
Proof.
split.
- intros Hb. pose proof (head_basename p) as Hp.
  rewrite Hb, str_app_nil_r in Hp.
  destruct (head_ends_with_sep p) as [Hh|Hh]; rewrite <- Hp in Hh; auto.
- intros [->|He]; [reflexivity|].
  apply endswith_inv in He as [p' ->].
  unfold os_path.basename. rewrite split_app_sep.
  now rewrite last_app_nonempty.
Qed.

(** A dot followed by dot-free characters, after a stem that is not made
    of dots only, is the extension. *)
Lemma splitext_name_ext st e :
  PyStr.contains os_path.extsep e = false ->
  os_path.splitext_name (st +:+ String os_path.extsep e) =
  if PyStr.all_char os_path.extsep st
  then (st +:+ String os_path.extsep e, "")
  else (st, String os_path.extsep e).
Proof.
intros He. unfold os_path.splitext_name.
rewrite split_app_sep, (split_single _ _ He), removelast_last, last_last.
pose proof (split_nonempty os_path.extsep st) as Hne.
pose proof (split_join os_path.extsep st) as Hj.
destruct (PyStr.split os_path.extsep st) as [|x l]; [easy|].
cbv zeta. now rewrite Hj.
Qed.

(** The stem of a file name: what precedes its last dot when that is not
    made of dots only, and the whole name when it cannot be cut so. *)
Lemma splitext_name_stem f :
  (forall st e,
     f = st +:+ String os_path.extsep e ->
     PyStr.contains os_path.extsep e = false ->
     PyStr.all_char os_path.extsep st = false ->
     fst (os_path.splitext_name f) = st) /\
  ((forall st e,
      f = st +:+ String os_path.extsep e ->
      PyStr.contains os_path.extsep e = false ->
      PyStr.all_char os_path.extsep st = true) ->
   fst (os_path.splitext_name f) = f).
Proof.
split.
- intros st e -> He Hst. now rewrite (splitext_name_ext _ _ He), Hst.
- intros Hno. unfold os_path.splitext_name.
  pose proof (split_last_decomp os_path.extsep f) as Hd.
  pose proof (last_split_no_sep os_path.extsep f) as Hl.
  destruct (removelast (PyStr.split os_path.extsep f)) as [|x l];
    [reflexivity|].
  cbv zeta. destruct (PyStr.all_char _ _) eqn:Hall; [reflexivity|].
  rewrite str_app_assoc, str_app_cons in Hd.
  change ("" +:+ ?s) with s in Hd.
  rewrite (Hno _ _ Hd Hl) in Hall. discriminate.
Qed.

Lemma splitext_name_fst_empty s :
  fst (os_path.splitext_name s) = "" <-> s = "".
Proof.
split; [|now intros ->].
unfold os_path.splitext_name.
destruct (removelast (PyStr.split os_path.extsep s)) as [|x l]; [easy|].
destruct (PyStr.all_char _ _) eqn:Hall; [easy|].
simpl. intros Hst. rewrite Hst in Hall. discriminate.
Qed.

(** [splitext] on a name without separator. *)
Lemma splitext_of_name s :
  PyStr.contains os_path.sep s = false ->
  os_path.splitext s = os_path.splitext_name s.
Proof.
intros Hs. unfold os_path.splitext.
destruct (basename_of_name _ Hs) as [-> ->].
now destruct (os_path.splitext_name s).
Qed.

(** The extension that [_write] finds in [<save_dir>/<name><image_ext>]. *)
Lemma write_ext sd nm e :
  PyStr.contains os_path.extsep e = false ->
  PyStr.contains os_path.sep e = false ->
  snd (os_path.splitext
         (snd (os_path.split
                 (os_path.join sd (nm +:+ String os_path.extsep e))))) =
  if PyStr.all_char os_path.extsep (os_path.basename nm) then ""
  else String os_path.extsep e.
Proof.
intros Hdot Hsep. unfold os_path.split. cbn [snd].
rewrite basename_join, basename_app_nosep by (simpl; now rewrite Hsep).
rewrite splitext_of_name.
- rewrite (splitext_name_ext _ _ Hdot). now destruct (PyStr.all_char _ _).
- rewrite contains_app, basename_no_sep. simpl. now rewrite Hsep.
Qed.

(** The name that [__init__] derives from [<save_dir>/<name><image_ext>]. *)
Lemma derived_name_of_output sd nm e :
  PyStr.contains os_path.extsep e = false ->
  PyStr.contains os_path.sep e = false ->
  PyStr.contains os_path.sep nm = false ->
  PyStr.all_char os_path.extsep nm = false ->
  fst (os_path.splitext
         (os_path.basename
            (os_path.join sd (nm +:+ String os_path.extsep e)))) = nm.
Proof.
intros Hdot Hsep Hnm Hall.
rewrite basename_join, basename_app_nosep by (simpl; now rewrite Hsep).
destruct (basename_of_name _ Hnm) as [-> _].
rewrite splitext_of_name.
- now rewrite (splitext_name_ext _ _ Hdot), Hall.
- rewrite contains_app, Hnm. simpl. now rewrite Hsep.
Qed.

End NameFacts.

(** ** More on single saves *)

Section SingleSaveFacts.
Context `{Cv2} `{Mounts}.

Lemma imwrite_fs_frame q crop fs p :
  p <> q -> files (imwrite_fs q crop fs) !! p = files fs !! p.
Proof.
intros Hne. unfold imwrite_fs.
destruct (imwrite_encode q crop) as [e|[buf|]]; try reflexivity.
destruct (FS.writable fs q); [|reflexivity].
simpl. now apply lookup_insert_ne.
Qed.

(** Whether it runs through or raises, the loop changes no directory and
    no file other than those of the crops. *)
Lemma write_crops_frame cache n ext crops : forall i w,
  dirs (w_fs (snd (write_crops cache n ext i crops w))) = dirs (w_fs w) /\
  forall q, (forall j, q <> os_path.join cache (crop_filename n j ext)) ->
    files (w_fs (snd (write_crops cache n ext i crops w))) !! q
    = files (w_fs w) !! q.
Proof.
induction crops as [|crop rest IH]; intros i w; [now split|].
simpl. unfold bind. rewrite cv2_imwrite_eq.
destruct (imwrite_encode _ crop) as [e|r] eqn:Henc; [now split|].
destruct (IH (S i)
            (mk_world
               (imwrite_fs (os_path.join cache (crop_filename n i ext)) crop
                           (w_fs w))
               (w_trace w ++
                [EvImwrite (os_path.join cache (crop_filename n i ext)) crop])))
  as [Hd Hf].
destruct (write_crops cache n ext (S i) rest _) as [[e|[]] w3]; simpl in *.
- rewrite Hd, imwrite_fs_dirs. split; [reflexivity|].
  intros q Hq. rewrite (Hf q Hq). now apply imwrite_fs_frame.
- rewrite Hd, imwrite_fs_dirs. split; [reflexivity|].
  intros q Hq. rewrite (Hf q Hq). now apply imwrite_fs_frame.
Qed.

Lemma path_exists_file_true fs p buf :
  files fs !! p = Some buf -> FS.path_exists fs p = true.
Proof.
intros Hp. unfold FS.path_exists, FS.isfile.
rewrite orb_true_iff. left. apply bool_decide_eq_true. eauto.
Qed.

Lemma file_of_exists fs p :
  FS.path_exists fs p = true -> FS.isdir fs p = false ->
  exists buf, files fs !! p = Some buf.
Proof.
unfold FS.path_exists, FS.isfile. intros Hex Hd.
rewrite Hd, orb_false_r in Hex. now apply bool_decide_eq_true in Hex.
Qed.

End SingleSaveFacts.

(** ** A whole group, step by step *)

Section GroupRun.
Context `{Cv2} `{Mounts}.
Variables (orig : ImageSource) (c : cropper) (sd ext cache : string).
Variables (fs0 fs1 : filesystem) (img : ndarray) (crops : list ndarray).
Variables (n0 : string) (all : list string).

Let key (n : string) : string := os_path.join cache (n +:+ ext).
Let out (n : string) : string := os_path.join sd (n +:+ ext).
Let base (n : string) : string :=
  PyStr.join "_" (removelast (PyStr.split "_" n)).
Let fsP : filesystem := populate_fs cache n0 ext 0 crops fs1.

Hypothesis Hmk : FS.makedirs cache fs0 = inr fs1.
Hypothesis Hread : read_result orig fs1 = inr img.
Hypothesis Hcrop : c img = inr crops.
Hypothesis Hbase : forall n, In n all -> base n = base n0.
Hypothesis Hsep : forall n m, In n all -> In m all -> key n <> out m.
Hypothesis Hdir : forall n, In n all -> FS.isdir fs1 (key n) = false.
Hypothesis Hroot :
  forall n, In n all -> root_path orig <> out n /\ root_path orig <> key n.
Hypothesis HrootP :
  files fsP !! root_path orig = files fs1 !! root_path orig.

(** After the cache has been populated, a save of the group that returns
    has found its entry and moved it, and has done nothing else. *)
Lemma group_step (i : Z) (n : string) (fs : filesystem) (tr : list event)
    (w1 : world) :
  In n all ->
  dirs fs = dirs fs1 ->
  files fs !! root_path orig = files fs1 !! root_path orig ->
  (files fs !! key n = None ->
   created fs1 cache n0 ext 0 crops (key n) = None) ->
  save (CropImageSource orig i c n) sd ext (Some cache) (mk_world fs tr)
    = (inr tt, w1) ->
  exists buf,
    files fs !! key n = Some buf /\
    w1 = mk_world {| files := <[out n := buf]> (delete (key n) (files fs));
                     dirs := dirs fs1 |}
                  (tr ++ [EvMakedirs cache; EvRename (key n) (out n)]).
Proof.
intros Hn Hd Hr Hp Hsave.
rewrite save_cached_eq in Hsave. cbv zeta in Hsave. simpl w_fs in Hsave.
destruct (FS.makedirs cache fs) as [e|fs'] eqn:Hmk'; [discriminate|].
destruct (makedirs_again _ _ _ _ _ Hmk Hd Hmk') as [Hf' Hd'].
fold (key n) (out n) in Hsave.
destruct (FS.path_exists fs' (key n)) eqn:Hex.
- destruct (file_of_exists fs' (key n) Hex) as [buf Hbuf].
  { rewrite (isdir_dirs fs' fs1 _ Hd'). now apply Hdir. }
  rewrite os_rename_eq in Hsave. simpl w_fs in Hsave.
  rewrite (rename_file _ _ _ _ Hbuf) in Hsave.
  destruct (FS.rename_blocked fs' _ (out n)); [discriminate|].
  destruct (FS.isdir fs' (out n)); [discriminate|].
  injection Hsave as <-. exists buf. rewrite <- Hf'. split; [exact Hbuf|].
  simpl. rewrite Hd', <- app_assoc. reflexivity.
- exfalso. apply path_exists_false in Hex as [Hnone _].
  rewrite Hf' in Hnone. specialize (Hp Hnone).
  rewrite (read_result_ext orig fs' fs1) in Hsave
    by (rewrite ?Hf'; assumption).
  rewrite Hread, Hcrop in Hsave.
  rewrite (write_crops_same_base cache n n0) in Hsave by (apply (Hbase n Hn)).
  destruct (encodes_all cache n0 ext 0 crops) eqn:Henc.
  + rewrite (write_crops_ok _ _ _ _ _ _ Henc), os_rename_eq in Hsave.
    simpl w_fs in Hsave. rewrite rename_missing in Hsave; [discriminate|].
    apply path_exists_false. split.
    * rewrite populate_fs_files, (created_dirs _ fs1) by exact Hd'.
      now rewrite Hp, Hf'.
    * rewrite (isdir_dirs _ fs1); [now apply Hdir|].
      now rewrite populate_fs_dirs.
  + destruct (write_crops_raises cache n0 ext crops 0
                (add_event (EvCropper img)
                   (add_event (EvFromfile (root_path orig))
                      (mk_world fs' (tr ++ [EvMakedirs cache]))))
                Henc) as (e & w3 & Hw).
    simpl w_trace in Hsave. rewrite Hw in Hsave. discriminate.
Qed.

Lemma populated_None q :
  files fsP !! q = None -> created fs1 cache n0 ext 0 crops q = None.
Proof.
unfold fsP. rewrite populate_fs_files.
now destruct (created fs1 cache n0 ext 0 crops q).
Qed.

(** The saves that follow the first: each moves its entry; what is not a
    key or an output of the group stays as the populate step left it. *)
Lemma group_tail_full (pend : list (Z * string)) : forall done fs tr w',
  incl (List.map snd pend) all ->
  incl done all ->
  NoDup (List.map key (List.map snd pend)) ->
  (forall n d, In n (List.map snd pend) -> In d done -> n <> d) ->
  dirs fs = dirs fs1 ->
  (forall q, (forall n, In n all -> q <> key n /\ q <> out n) ->
     files fs !! q = files fsP !! q) ->
  (forall n, In n (List.map snd pend) ->
     files fs !! key n = files fsP !! key n) ->
  (forall n, In n done ->
     files fs !! key n = None /\
     is_Some (files fsP !! key n) /\
     ((forall m, In m all -> m <> n -> out m <> out n) ->
      files fs !! out n = files fsP !! key n)) ->
  save_all (crop_group orig c pend) sd ext (Some cache) (mk_world fs tr)
    = (inr tt, w') ->
  dirs (w_fs w') = dirs fs1 /\
  w_trace w' = tr ++ move_events cache sd ext (List.map snd pend) /\
  (forall q, (forall n, In n all -> q <> key n /\ q <> out n) ->
     files (w_fs w') !! q = files fsP !! q) /\
  (forall n, In n (List.map snd pend) \/ In n done ->
     files (w_fs w') !! key n = None /\
     is_Some (files fsP !! key n) /\
     ((forall m, In m all -> m <> n -> out m <> out n) ->
      files (w_fs w') !! out n = files fsP !! key n)).
Proof.
induction pend as [|[i n] rest IH];
  intros done fs tr w' Hpend Hdone Hnd Hdisj Hd Hfr Hp Hdn Hrun.
- injection Hrun as <-. simpl. rewrite app_nil_r.
  split; [exact Hd|]. split; [reflexivity|]. split; [exact Hfr|].
  intros n [[]|Hn]. now apply Hdn.
- change (save_all (crop_group orig c ((i, n) :: rest)) sd ext (Some cache))
    with (save (CropImageSource orig i c n) sd ext (Some cache) ;;;
          save_all (crop_group orig c rest) sd ext (Some cache)) in Hrun.
  apply bind_inv_inr in Hrun as ([] & w1 & Hsave & Hrun).
  assert (Hn : In n all) by (apply Hpend; now left).
  assert (Hrest : incl (List.map snd rest) all).
  { intros m Hm. apply Hpend. now right. }
  simpl in Hnd. apply NoDup_cons in Hnd as [Hnotin Hnd].
  assert (Hkeys : forall m, In m (List.map snd rest) -> key m <> key n).
  { intros m Hm Heq. apply Hnotin. rewrite <- Heq.
    apply list_elem_of_In. now apply in_map. }
  destruct (Hroot n Hn) as [Hro Hrk].
  apply group_step in Hsave as (buf & Hbuf & ->); try assumption.
  2:{ rewrite Hfr, HrootP; [reflexivity|]. intros m Hm.
      destruct (Hroot m Hm). split; assumption. }
  2:{ intros Hnone. apply populated_None.
      now rewrite <- (Hp n (or_introl eq_refl)). }
  assert (HbufP : files fsP !! key n = Some buf).
  { now rewrite <- (Hp n (or_introl eq_refl)). }
  apply (IH (n :: done)) in Hrun; try assumption.
  + destruct Hrun as (Hdw & Htr & Hfrw & Hall).
    split; [exact Hdw|]. split; [|split; [exact Hfrw|]].
    * rewrite Htr. simpl. now rewrite <- app_assoc.
    * intros m [[<-|Hm]|Hm]; apply Hall; auto; right; [now left|now right].
  + intros m [<-|Hm]; [exact Hn|now apply Hdone].
  + intros m d Hm [<-|Hdd]; [|apply Hdisj; [now right|exact Hdd]].
    intros ->. now apply (Hkeys n Hm).
  + reflexivity.
  + intros q Hq. simpl. destruct (Hq n Hn) as [Hqk Hqo].
    rewrite lookup_insert_ne by congruence.
    rewrite lookup_delete_ne by congruence. now apply Hfr.
  + intros m Hm. simpl.
    rewrite lookup_insert_ne by (apply not_eq_sym, Hsep; auto).
    rewrite lookup_delete_ne by (apply not_eq_sym, Hkeys, Hm).
    apply Hp. now right.
  + intros m [<-|Hm]; simpl.
    * split; [|split; [eauto|]].
      -- rewrite lookup_insert_ne by (apply not_eq_sym, Hsep; auto).
         apply lookup_delete_eq.
      -- intros _. now rewrite lookup_insert_eq.
    * destruct (Hdn m Hm) as (Hk & Hs & Ho). split; [|split; [exact Hs|]].
      -- rewrite lookup_insert_ne by (apply not_eq_sym, Hsep; auto).
         destruct (decide (key n = key m)) as [->|Hne];
           [apply lookup_delete_eq|].
         now rewrite lookup_delete_ne by exact Hne.
      -- intros Hinj.
         assert (Hnm : n <> m) by (apply Hdisj; [now left|exact Hm]).
         rewrite lookup_insert_ne by (apply Hinj; assumption).
         rewrite lookup_delete_ne by (apply Hsep; auto).
         now apply Ho.
Qed.

End GroupRun.

Section GroupWhole.
Context `{Cv2} `{Mounts}.
Variables (orig : ImageSource) (c : cropper) (sd ext cache b : string).

Local Abbreviation key n := (os_path.join cache (n +:+ ext)).
Local Abbreviation out n := (os_path.join sd (n +:+ ext)).

(** The run of a whole group from a cache that holds none of its keys:
    the first save populates, the others move. *)
Lemma group_run (i0 : Z) (n0 : string) (rest : list (Z * string))
    (w w' : world) (fs1 : filesystem) :
  let names := n0 :: List.map snd rest in
  (forall n, In n names ->
     PyStr.join "_" (removelast (PyStr.split "_" n)) = b) ->
  NoDup (List.map (fun n => key n) names) ->
  FS.makedirs cache (w_fs w) = inr fs1 ->
  (forall n, In n names -> FS.path_exists fs1 (key n) = false) ->
  (forall n m, In n names -> In m names -> key n <> out m) ->
  (forall n, In n names -> root_path orig <> out n /\ root_path orig <> key n) ->
  (forall j, root_path orig <>
             os_path.join cache (b +:+ "_" +:+ PyStr.str j +:+ ext)) ->
  save_all (crop_group orig c ((i0, n0) :: rest)) sd ext (Some cache) w
    = (inr tt, w') ->
  exists img crops,
    read_result orig fs1 = inr img /\
    c img = inr crops /\
    dirs (w_fs w') = dirs fs1 /\
    w_trace w' =
      w_trace w
        ++ [EvMakedirs cache; EvFromfile (root_path orig); EvCropper img]
        ++ imwrite_events cache n0 ext 0 crops
        ++ [EvRename (key n0) (out n0)]
        ++ move_events cache sd ext (List.map snd rest) /\
    (forall q, (forall n, In n names -> q <> key n /\ q <> out n) ->
       files (w_fs w') !! q
       = files (populate_fs cache n0 ext 0 crops fs1) !! q) /\
    (forall n, In n names ->
       files (w_fs w') !! key n = None /\
       is_Some (files (populate_fs cache n0 ext 0 crops fs1) !! key n) /\
       ((forall m, In m names -> m <> n -> out m <> out n) ->
        files (w_fs w') !! out n
        = files (populate_fs cache n0 ext 0 crops fs1) !! key n)).
Proof.
intros names. subst names.
intros Hb Hnd Hmk Hclean Hsep Hroot Hrootp Hrun.
change (save_all (crop_group orig c ((i0, n0) :: rest)) sd ext (Some cache))
  with (save (CropImageSource orig i0 c n0) sd ext (Some cache) ;;;
        save_all (crop_group orig c rest) sd ext (Some cache)) in Hrun.
apply bind_inv_inr in Hrun as ([] & w1 & Hsave & Hrun).
assert (Hn0 : In n0 (n0 :: List.map snd rest)) by now left.
assert (Hdir : forall n, In n (n0 :: List.map snd rest) ->
                         FS.isdir fs1 (key n) = false).
{ intros n Hn. now apply (path_exists_false fs1 _), Hclean. }
assert (Hfree : forall n, In n (n0 :: List.map snd rest) ->
                          files fs1 !! key n = None).
{ intros n Hn. now apply (path_exists_false fs1 _), Hclean. }
simpl List.map in Hnd. apply NoDup_cons in Hnd as [Hnotin Hnd].
assert (Hkeys : forall m, In m (List.map snd rest) -> key m <> key n0).
{ intros m Hm Heq. apply Hnotin. rewrite <- Heq. apply list_elem_of_In.
  now apply (in_map (fun n => key n)). }
rewrite save_cached_eq in Hsave. cbv zeta in Hsave.
rewrite Hmk, (Hclean n0 Hn0) in Hsave.
destruct (read_result orig fs1) as [e|img] eqn:Hread; [discriminate|].
destruct (c img) as [e|crops] eqn:Hcrop; [discriminate|].
destruct (encodes_all cache n0 ext 0 crops) eqn:Henc.
2:{ destruct (write_crops_raises cache n0 ext crops 0
                (add_event (EvCropper img)
                   (add_event (EvFromfile (root_path orig))
                      (mk_world fs1 (w_trace w ++ [EvMakedirs cache]))))
                Henc) as (e & w3 & Hw).
    rewrite Hw in Hsave. discriminate. }
rewrite (write_crops_ok _ _ _ _ _ _ Henc), os_rename_eq in Hsave.
simpl w_fs in Hsave.
set (fsP := populate_fs cache n0 ext 0 crops fs1) in *.
assert (HdP : dirs fsP = dirs fs1) by apply populate_fs_dirs.
destruct (files fsP !! key n0) as [buf|] eqn:Hk0.
2:{ rewrite rename_missing in Hsave; [discriminate|].
    apply path_exists_false. split; [exact Hk0|].
    rewrite (isdir_dirs _ fs1 _ HdP). now apply Hdir. }
rewrite (rename_file _ _ _ _ Hk0) in Hsave.
destruct (FS.rename_blocked fsP _ (out n0)); [discriminate|].
destruct (FS.isdir fsP (out n0)); [discriminate|].
injection Hsave as <-.
assert (HrootP : files fsP !! root_path orig = files fs1 !! root_path orig).
{ unfold fsP. rewrite populate_fs_files.
  destruct (created fs1 cache n0 ext 0 crops (root_path orig))
    as [b0|] eqn:Hcr; [|reflexivity].
  apply created_inv in Hcr as (j & _ & _ & Hp & _).
  rewrite crop_filename_eq, (Hb n0 Hn0) in Hp. now destruct (Hrootp j). }
exists img, crops. split; [reflexivity|]. split; [exact Hcrop|].
eapply (group_tail_full orig c sd ext cache (w_fs w) fs1 img crops n0
          (n0 :: List.map snd rest) Hmk Hread Hcrop)
  with (done := [n0]) in Hrun.
- destruct Hrun as (Hdw & Htr & Hfr & Hall).
  split; [exact Hdw|]. split; [|split; [exact Hfr|]].
  + rewrite Htr. simpl. rewrite <- !app_assoc. reflexivity.
  + intros n Hn. apply Hall. destruct Hn as [<-|Hn]; [right; now left|now left].
- intros n Hn. now rewrite (Hb n Hn), (Hb n0 Hn0).
- exact Hsep.
- exact Hdir.
- exact Hroot.
- exact HrootP.
- intros n Hn. now right.
- intros n [<-|[]]. now left.
- exact Hnd.
- intros n d Hn [<-|[]] ->. now apply (Hkeys n0 Hn).
- exact HdP.
- intros q Hq. simpl. destruct (Hq n0 Hn0) as [Hqk Hqo].
  rewrite lookup_insert_ne by congruence.
  now rewrite lookup_delete_ne by congruence.
- intros n Hn. simpl.
  rewrite lookup_insert_ne
    by (apply not_eq_sym, Hsep; [now right|now left]).
  now rewrite lookup_delete_ne by (apply not_eq_sym, Hkeys, Hn).
- intros n [<-|[]]. simpl. split; [|split; [eauto|]].
  + rewrite lookup_insert_ne by (apply not_eq_sym, Hsep; assumption).
    apply lookup_delete_eq.
  + intros _. now rewrite lookup_insert_eq.
Qed.

End GroupWhole.

Section GroupMore.
Context `{Cv2} `{Mounts}.

Lemma NoDup_map_inj {A B} (f : A -> B) (l : list A) x y :
  NoDup (List.map f l) -> In x l -> In y l -> f x = f y -> x = y.
Proof.
induction l as [|a l IH]; [easy|].
simpl. intros Hnd Hx Hy Hf. apply NoDup_cons in Hnd as [Hnotin Hnd].
destruct Hx as [->|Hx], Hy as [->|Hy]; auto.
- destruct Hnotin. rewrite Hf. apply list_elem_of_In. now apply in_map.
- destruct Hnotin. rewrite <- Hf. apply list_elem_of_In. now apply in_map.
Qed.

Lemma crop_filename_same_base n n' j ext :
  PyStr.join "_" (removelast (PyStr.split "_" n))
    = PyStr.join "_" (removelast (PyStr.split "_" n')) ->
  crop_filename n j ext = crop_filename n' j ext.
Proof. intros Hb. unfold crop_filename. now rewrite Hb. Qed.

Lemma populate_fs_same_base cache n n' ext crops : forall i fs,
  PyStr.join "_" (removelast (PyStr.split "_" n))
    = PyStr.join "_" (removelast (PyStr.split "_" n')) ->
  populate_fs cache n ext i crops fs = populate_fs cache n' ext i crops fs.
Proof.
intros i fs Hb. revert i fs.
induction crops as [|crop rest IH]; intros i fs; [reflexivity|].
simpl. now rewrite (crop_filename_same_base n n' i ext Hb), IH.
Qed.

(** A cache key that the populate step has put on a cold cache is the
    file of one of the crops, the one whose position ends the name. *)
Lemma populated_key_is_crop cache n n0 ext crops fs1 buf :
  files fs1 !! os_path.join cache (n +:+ ext) = None ->
  PyStr.join "_" (removelast (PyStr.split "_" n))
    = PyStr.join "_" (removelast (PyStr.split "_" n0)) ->
  files (populate_fs cache n0 ext 0 crops fs1)
    !! os_path.join cache (n +:+ ext) = Some buf ->
  exists k crop,
    crops !! k = Some crop /\
    n = PyStr.join "_" (removelast (PyStr.split "_" n))
          +:+ "_" +:+ PyStr.str k /\
    imwrite_encode (os_path.join cache (n +:+ ext)) crop = inr (Some buf).
Proof.
intros Hfree Hb Hpop.
rewrite <- (populate_fs_same_base cache n n0 ext crops 0 fs1 Hb) in Hpop.
rewrite populate_fs_files, Hfree in Hpop.
destruct (created fs1 cache n ext 0 crops (os_path.join cache (n +:+ ext)))
  as [b0|] eqn:Hcr; [|discriminate].
injection Hpop as ->.
apply created_inv in Hcr as (k & crop & Hk & Hp & He & _).
exists k, crop. split; [exact Hk|]. split; [|exact He].
now apply key_eq_crop_path in Hp.
Qed.

Lemma filter_imwrite_events (f : event -> bool) cache n ext crops :
  (forall p i, f (EvImwrite p i) = false) ->
  forall i, List.filter f (imwrite_events cache n ext i crops) = [].
Proof.
intros Hf. induction crops as [|crop rest IH]; intros i; [reflexivity|].
simpl. now rewrite Hf, IH.
Qed.

Lemma filter_move_events (f : event -> bool) cache sd ext names :
  (forall p, f (EvMakedirs p) = false) ->
  (forall p q, f (EvRename p q) = false) ->
  List.filter f (move_events cache sd ext names) = [].
Proof.
intros Hm Hr. induction names as [|n names IH]; [reflexivity|].
simpl. now rewrite Hm, Hr, IH.
Qed.

Lemma renames_of_move_events cache sd ext names :
  length (List.filter is_EvRename (move_events cache sd ext names))
  = length names.
Proof.
induction names as [|n names IH]; [reflexivity|]. simpl. now rewrite IH.
Qed.

End GroupMore.

(** ** Making the cache directory again *)

Section MakedirsFacts.
Context `{Cv2} `{Mounts}.

Lemma rstrip_idem c s : PyStr.rstrip c (PyStr.rstrip c s) = PyStr.rstrip c s.
Proof.
induction s as [|a s IH]; [reflexivity|]. simpl.
destruct (PyStr.rstrip c s) as [|b r] eqn:Hr.
- destruct (Ascii.eqb a c) eqn:Hac; [reflexivity|]. simpl. now rewrite Hac.
- change (PyStr.rstrip c (String a (String b r)))
    with (match PyStr.rstrip c (String b r) with
          | EmptyString =>
              if Ascii.eqb a c then EmptyString else String a EmptyString
          | r' => String a r'
          end).
  now rewrite IH.
Qed.

Lemma dir_prefixes_last s : forall acc,
  In (acc +:+ s) (FS.dir_prefixes acc s).
Proof.
induction s as [|c r IH]; intros acc; simpl.
- left. now rewrite str_app_nil_r.
- apply in_or_app. right.
  specialize (IH (acc +:+ String c "")).
  now rewrite str_app_assoc in IH.
Qed.

Lemma rstrip_in_ancestors p :
  PyStr.rstrip os_path.sep p = "" \/
  In (PyStr.rstrip os_path.sep p) (FS.ancestors p).
Proof.
destruct (String.eqb_spec (PyStr.rstrip os_path.sep p) "") as [He|Hne];
  [now left|right].
unfold FS.ancestors. apply filter_In. split.
- apply in_map. exact (dir_prefixes_last p "").
- now apply negb_true_iff, String.eqb_neq.
Qed.

Lemma ancestors_isdir p fs fs1 a :
  FS.makedirs p fs = inr fs1 -> In a (FS.ancestors p) ->
  FS.isdir fs1 a = true.
Proof.
intros Hmk Ha. destruct (makedirs_inr _ _ _ Hmk) as [_ Hd].
unfold FS.ancestors in Ha. apply filter_In in Ha as [Hin Hne].
apply in_map_iff in Hin as (x & <- & Hx).
unfold FS.isdir. rewrite rstrip_idem.
apply negb_true_iff in Hne. rewrite Hne.
apply bool_decide_eq_true. rewrite Hd. apply elem_of_union_r.
apply elem_of_list_to_set, list_elem_of_In.
unfold FS.ancestors. apply filter_In. split.
- now apply in_map.
- now rewrite Hne.
Qed.

(** The paths at which [os.makedirs] would stumble over a file. *)
Lemma makedirs_inr_iff p fs :
  (exists fs1, FS.makedirs p fs = inr fs1) <->
  p <> "" /\
  files fs !! PyStr.rstrip os_path.sep p = None /\
  forall a, In a (FS.ancestors p) -> files fs !! a = None.
Proof.
unfold FS.makedirs, FS.isfile. split.
- intros [fs1 Hmk].
  destruct (String.eqb_spec p "") as [|Hne]; [discriminate|].
  destruct (bool_decide _) eqn:Hf; [discriminate|].
  destruct (existsb _ _) eqn:Hex; [discriminate|].
  split; [exact Hne|]. split.
  + apply bool_decide_eq_false in Hf. now apply eq_None_not_Some.
  + intros a Ha. apply eq_None_not_Some. intros Hsome.
    assert (Htrue : existsb
                      (fun p0 => bool_decide (is_Some (files fs !! p0)))
                      (FS.ancestors p) = true).
    { apply existsb_exists. exists a. split; [exact Ha|].
      now apply bool_decide_eq_true. }
    congruence.
- intros (Hne & Hp & Hanc).
  destruct (String.eqb_spec p "") as [|_]; [easy|].
  rewrite Hp. rewrite bool_decide_eq_false_2 by (intros [? ?]; discriminate).
  destruct (existsb _ _) eqn:Hex; [|eauto].
  apply existsb_exists in Hex as (a & Ha & Hf).
  apply bool_decide_eq_true in Hf. rewrite (Hanc a Ha) in Hf.
  now destruct Hf.
Qed.

(** A path that is a directory once the cache directory is there is never
    opened for writing. *)
Lemma not_writable_dir p fs fs1 a :
  FS.makedirs p fs = inr fs1 ->
  a = PyStr.rstrip os_path.sep p \/ In a (FS.ancestors p) ->
  forall fs', dirs fs' = dirs fs1 -> FS.writable fs' a = false.
Proof.
intros Hmk Ha fs' Hd.
assert (Hcase : a = "" \/ FS.isdir fs1 a = true).
{ destruct Ha as [->|Ha].
  - destruct (rstrip_in_ancestors p) as [He|Hin]; [now left|right].
    now apply (ancestors_isdir p fs).
  - right. now apply (ancestors_isdir p fs). }
unfold FS.writable. destruct Hcase as [->|Hdir]; [reflexivity|].
rewrite (isdir_dirs fs' fs1 a Hd), Hdir.
now destruct (String.eqb a "").
Qed.

(** Whether it runs through or raises, the loop only adds to the trace. *)
Lemma write_crops_trace cache n ext crops : forall i w,
  exists evs,
    w_trace (snd (write_crops cache n ext i crops w)) = w_trace w ++ evs.
Proof.
induction crops as [|crop rest IH]; intros i w.
- exists []. simpl. now rewrite app_nil_r.
- simpl. unfold bind. rewrite cv2_imwrite_eq.
  destruct (imwrite_encode _ crop) as [e|r].
  + eexists. reflexivity.
  + destruct (IH (S i)
                (mk_world
                   (imwrite_fs (os_path.join cache (crop_filename n i ext))
                               crop (w_fs w))
                   (w_trace w ++
                    [EvImwrite (os_path.join cache (crop_filename n i ext))
                               crop]))) as [evs Hevs].
    destruct (write_crops cache n ext (S i) rest _) as [[e|[]] w3];
      simpl in *; rewrite Hevs, <- app_assoc; eexists; reflexivity.
Qed.

End MakedirsFacts.

Section SaveAgainFacts.
Context `{Cv2} `{Mounts}.

(** What a save with a cache directory that has returned has done. *)
Lemma save_cached_inr orig idx c n sd ext cache w w1 fs1 :
  FS.makedirs cache (w_fs w) = inr fs1 ->
  FS.isdir fs1 (os_path.join cache (n +:+ ext)) = false ->
  save (CropImageSource orig idx c n) sd ext (Some cache) w = (inr tt, w1) ->
  exists fs3 buf,
    dirs fs3 = dirs fs1 /\
    (forall a, files fs3 !! a = files fs1 !! a \/ FS.writable fs1 a = true) /\
    files fs3 !! os_path.join cache (n +:+ ext) = Some buf /\
    FS.writable fs3 (os_path.join sd (n +:+ ext)) = true /\
    w_fs w1 = {| files := <[os_path.join sd (n +:+ ext) := buf]>
                            (delete (os_path.join cache (n +:+ ext))
                                    (files fs3));
                 dirs := dirs fs1 |}.
Proof.
intros Hmk Hdir Hsave.
assert (Hmove : forall fs3 tr,
          dirs fs3 = dirs fs1 ->
          (forall a, files fs3 !! a = files fs1 !! a \/
                     FS.writable fs1 a = true) ->
          os_rename (os_path.join cache (n +:+ ext))
                    (os_path.join sd (n +:+ ext)) (mk_world fs3 tr)
            = (inr tt, w1) ->
          exists fs3 buf,
            dirs fs3 = dirs fs1 /\
            (forall a, files fs3 !! a = files fs1 !! a \/
                       FS.writable fs1 a = true) /\
            files fs3 !! os_path.join cache (n +:+ ext) = Some buf /\
            FS.writable fs3 (os_path.join sd (n +:+ ext)) = true /\
            w_fs w1 = {| files := <[os_path.join sd (n +:+ ext) := buf]>
                                    (delete (os_path.join cache (n +:+ ext))
                                            (files fs3));
                         dirs := dirs fs1 |}).
{ intros fs3 tr Hd Hch Hren. rewrite os_rename_eq in Hren. simpl w_fs in Hren.
  destruct (files fs3 !! os_path.join cache (n +:+ ext)) as [buf|] eqn:Hkey.
  - rewrite (rename_file _ _ _ _ Hkey) in Hren.
    destruct (FS.rename_blocked fs3 _ _) eqn:Hblk; [discriminate|].
    destruct (FS.isdir fs3 _) eqn:Hisd; [discriminate|].
    pose proof (rename_ok_writable _ _ _ Hblk Hisd) as Hw.
    injection Hren as <-. exists fs3, buf. simpl. rewrite Hd. auto.
  - rewrite rename_missing in Hren; [discriminate|].
    apply path_exists_false. split; [exact Hkey|].
    now rewrite (isdir_dirs _ fs1 _ Hd). }
rewrite save_cached_eq in Hsave. cbv zeta in Hsave. rewrite Hmk in Hsave.
destruct (FS.path_exists fs1 _).
- apply Hmove in Hsave; [exact Hsave|reflexivity|now left].
- destruct (read_result orig fs1) as [e|img]; [discriminate|].
  destruct (c img) as [e|crops]; [discriminate|].
  destruct (encodes_all cache n ext 0 crops) eqn:Henc.
  + rewrite (write_crops_ok _ _ _ _ _ _ Henc) in Hsave.
    apply Hmove in Hsave; [exact Hsave|apply populate_fs_dirs|].
    intros a. simpl. rewrite populate_fs_files.
    destruct (created fs1 cache n ext 0 crops a) as [b|] eqn:Hcr;
      [right|now left].
    now apply created_inv in Hcr as (_ & _ & _ & _ & _ & Hw).
  + destruct (write_crops_raises cache n ext crops 0
                (add_event (EvCropper img)
                   (add_event (EvFromfile (root_path orig))
                      (mk_world fs1 (w_trace w ++ [EvMakedirs cache]))))
                Henc) as (e & w3 & Hw).
    rewrite Hw in Hsave. discriminate.
Qed.

End SaveAgainFacts.

(** ** More on the populate step *)

Section PopulateMore.
Context `{Cv2} `{Mounts}.

(** What the loop leaves at the path of crop [j]: the encoding of that
    crop, if [cv2.imwrite] produced one and could open the file. *)
Lemma created_crop fs cache n ext crops j crop :
  crops !! j = Some crop ->
  created fs cache n ext 0 crops
          (os_path.join cache (crop_filename n j ext)) =
  match imwrite_encode (os_path.join cache (crop_filename n j ext)) crop with
  | inr (Some buf) =>
      if FS.writable fs (os_path.join cache (crop_filename n j ext))
      then Some buf else None
  | _ => None
  end.
Proof.
intros Hj.
destruct (created fs cache n ext 0 crops _) as [b|] eqn:Hc.
- apply created_inv in Hc as (j' & crop' & Hj' & Hp & He & Hw).
  change (0 + j') with j' in Hp. apply crop_path_inj in Hp. subst j'.
  rewrite Hj in Hj'. injection Hj' as <-. now rewrite He, Hw.
- destruct (imwrite_encode _ crop) as [e|[buf|]] eqn:He; try reflexivity.
  destruct (FS.writable fs _) eqn:Hw; [|reflexivity].
  pose proof (created_at fs cache n ext crops 0 j crop buf Hj) as Hat.
  change (0 + j) with j in Hat. rewrite (Hat He Hw) in Hc. discriminate.
Qed.

(** The loop writes nowhere but at the paths of the crops. *)
Lemma created_elsewhere fs cache n ext crops q :
  (forall j, j < length crops ->
             q <> os_path.join cache (crop_filename n j ext)) ->
  created fs cache n ext 0 crops q = None.
Proof.
intros Hq. destruct (created fs cache n ext 0 crops q) as [b|] eqn:Hc;
  [|reflexivity].
apply created_inv in Hc as (j & crop & Hj & Hp & _).
apply lookup_lt_Some in Hj. now destruct (Hq j Hj).
Qed.

(** An exception that leaves the loop is the exception of one of its
    [cv2.imwrite] calls. *)
Lemma write_crops_inl cache n ext crops : forall i w e w',
  write_crops cache n ext i crops w = (inl e, w') ->
  exists j crop,
    crops !! j = Some crop /\
    imwrite_encode (os_path.join cache (crop_filename n (i + j) ext)) crop
      = inl e.
Proof.
induction crops as [|crop rest IH]; intros i w e w' Hw; [discriminate|].
simpl in Hw. unfold bind in Hw. rewrite cv2_imwrite_eq in Hw.
destruct (imwrite_encode _ crop) as [e0|r] eqn:Henc.
- injection Hw as <- _. exists 0, crop. now rewrite Nat.add_0_r.
- apply IH in Hw as (j & cr & Hj & He). exists (S j), cr.
  split; [exact Hj|]. now replace (i + S j) with (S i + j) by lia.
Qed.

(** The loop returns exactly when none of its [cv2.imwrite] calls
    raises. *)
Lemma write_crops_returns cache n ext crops i w :
  fst (write_crops cache n ext i crops w) = inr tt <->
  encodes_all cache n ext i crops = true.
Proof.
destruct (encodes_all cache n ext i crops) eqn:Henc.
- now rewrite (write_crops_ok _ _ _ _ _ _ Henc).
- destruct (write_crops_raises _ _ _ _ i w Henc) as (e & w' & ->).
  split; discriminate.
Qed.

End PopulateMore.

(** ** What the specification states *)

Section Claims.
Context `{Cv2} `{Mounts}.

(** C5.  [CropImageSource.read] returns exactly what the [read] of the
    original image source returns, the uncropped image, and leaves the
    same world behind; the index and the cropper of the source have no
    part in it. *)
Theorem CropImageSource_read_is_original_read
    (orig : ImageSource) (idx idx' : Z) (c c' : cropper) (n : string)
    (w : world) :
  read (CropImageSource orig idx c n) w = read orig w /\
  read (CropImageSource orig idx' c' n) w = read (CropImageSource orig idx c n) w.
Proof. rewrite !read_eq. split; reflexivity. Qed.

(** C9.  With a cache directory, [CropImageSource.save] does not consult
    [idx]: two sources that differ in [idx] only return the same result
    and leave the same world, that is, the same filesystem after the same
    sequence of calls. *)
Theorem CropImageSource_save_cached_ignores_idx
    (orig : ImageSource) (idx1 idx2 : Z) (c : cropper) (n : string)
    (save_dir image_ext cache_dir : string) (w : world) :
  save (CropImageSource orig idx1 c n) save_dir image_ext (Some cache_dir) w =
  save (CropImageSource orig idx2 c n) save_dir image_ext (Some cache_dir) w.
Proof. rewrite !save_cached_eq. reflexivity. Qed.

(** Without a cache directory the call raises; when the image is read,
    cropped and indexed without error, what it raises is the [TypeError]
    of [os.path.join(None, ...)]. *)
Lemma save_no_cache_eq orig idx c n sd ext w :
  save (CropImageSource orig idx c n) sd ext None w =
  let w1 := add_event (EvFromfile (root_path orig)) w in
  match read_result orig (w_fs w) with
  | inl e => (inl e, w1)
  | inr img =>
      match c img with
      | inl e => (inl e, add_event (EvCropper img) w1)
      | inr crops =>
          (inl (match fst (getitem crops idx w) with
                | inl e => e
                | inr _ => TypeError
                end), add_event (EvCropper img) w1)
      end
  end.
Proof.
  unfold CropImageSource, save, CropImageSource_save.
  unfold bind at 1. rewrite read_CropSource, read_eq.
  destruct (read_result orig (w_fs w)) as [e|img]; [reflexivity|].
  unfold bind at 1. unfold call_cropper, bind at 1, log, lift.
  destruct (c img) as [e|crops]; [reflexivity|].
  unfold bind, getitem, raise, ret.
  destruct (_ <? 0)%Z; [reflexivity|].
  destruct (crops !! _); reflexivity.
Qed.

Lemma getitem_spec {A} (l : list A) (i : Z) (w : world) :
  ((- Z.of_nat (length l) <= i < Z.of_nat (length l))%Z /\
   exists x, getitem l i w = (inr x, w)) \/
  (~ (- Z.of_nat (length l) <= i < Z.of_nat (length l))%Z /\
   getitem l i w = (inl IndexError, w)).
Proof.
  unfold getitem, raise, ret.
  destruct (Z.ltb_spec i 0) as [Hneg|Hpos].
  - destruct (Z.ltb_spec (Z.of_nat (length l) + i) 0) as [Hlow|Hin].
    + right. split; [lia|reflexivity].
    + destruct (l !! Z.to_nat (Z.of_nat (length l) + i)) as [x|] eqn:Hx.
      * left. split; [lia|eauto].
      * apply lookup_ge_None in Hx. lia.
  - destruct (Z.ltb_spec i 0) as [?|_]; [lia|].
    destruct (l !! Z.to_nat i) as [x|] eqn:Hx.
    + left. apply lookup_lt_Some in Hx. split; [lia|eauto].
    + right. apply lookup_ge_None in Hx. split; [lia|reflexivity].
Qed.

(** C4.  [CropImageSource.save] without a cache directory always raises,
    leaves the filesystem as it found it, and makes no call that writes,
    creates or moves anything.  What it raises is the exception of
    [read] or of the cropper if one of them raises, [IndexError] if
    [idx] is out of range for the crops, and otherwise the [TypeError]
    of building the output path from the missing cache directory. *)
Theorem CropImageSource_save_no_cache_fails
    (orig : ImageSource) (idx : Z) (c : cropper) (n : string)
    (save_dir image_ext : string) (w : world) :
  exists (e : exn) (w' : world) (evs : list event),
    save (CropImageSource orig idx c n) save_dir image_ext None w = (inl e, w') /\
    w_fs w' = w_fs w /\
    w_trace w' = w_trace w ++ evs /\
    forallb (fun ev => negb (is_write_event ev)) evs = true /\
    (fst (read orig w) = inl e \/
     exists img,
       fst (read orig w) = inr img /\
       (c img = inl e \/
        exists crops,
          c img = inr crops /\
          ((e = TypeError /\
            (- Z.of_nat (length crops) <= idx < Z.of_nat (length crops))%Z) \/
           (e = IndexError /\
            ~ (- Z.of_nat (length crops) <= idx < Z.of_nat (length crops))%Z)))).
Proof.
  rewrite save_no_cache_eq, read_eq. cbv zeta. cbn [fst].
  destruct (read_result orig (w_fs w)) as [e|img].
  - exists e, (add_event (EvFromfile (root_path orig)) w),
      [EvFromfile (root_path orig)].
    repeat split. now left.
  - destruct (c img) as [e|crops] eqn:Hc.
    + exists e. eexists _, [EvFromfile (root_path orig); EvCropper img].
      split; [reflexivity|]. simpl. rewrite <- app_assoc.
      repeat split. right. exists img. split; [reflexivity|].
      left. first [exact Hc|reflexivity].
    + eexists _, _, [EvFromfile (root_path orig); EvCropper img].
      split; [reflexivity|]. simpl. rewrite <- app_assoc.
      repeat split. right. exists img. split; [reflexivity|].
      right. exists crops. split; [first [exact Hc|reflexivity]|].
      destruct (getitem_spec crops idx w) as [[Hin [x ->]]|[Hout ->]];
        simpl; [left|right]; now split.
Qed.

(** C2.  When the cache key file exists as the call begins, the call
    makes no call to the cropper and does not read the original image:
    all it does is make sure of the cache directory and, if that did not
    fail, move the cache entry. *)
Theorem CropImageSource_save_warm_skips_cropper
    (orig : ImageSource) (idx : Z) (c : cropper) (n : string)
    (save_dir image_ext cache_dir : string) (w : world) :
  FS.path_exists (w_fs w) (os_path.join cache_dir (n +:+ image_ext)) = true ->
  exists evs : list event,
    w_trace (snd (save (CropImageSource orig idx c n)
                       save_dir image_ext (Some cache_dir) w))
      = w_trace w ++ evs /\
    (evs = [EvMakedirs cache_dir] \/
     evs = [EvMakedirs cache_dir;
            EvRename (os_path.join cache_dir (n +:+ image_ext))
                     (os_path.join save_dir (n +:+ image_ext))]) /\
    forallb (fun ev => negb (is_EvCropper ev || is_EvFromfile ev)) evs = true.
Proof.
  intros Hwarm. rewrite save_cached_eq. cbv zeta.
  destruct (FS.makedirs cache_dir (w_fs w)) as [e|fs1] eqn:Hmk.
  - exists [EvMakedirs cache_dir]. repeat split. now left.
  - rewrite (makedirs_exists _ _ _ _ Hmk Hwarm), os_rename_eq. simpl w_fs.
    eexists. split; [|split; [right; reflexivity|reflexivity]].
    destruct (FS.rename _ _ fs1); simpl; now rewrite <- app_assoc.
Qed.

(** C6.  [PathImageSource(p, fns).read()], when the file at [p] decodes,
    is the functions of [fns] applied from left to right to the decoded
    image, each to the output of the one before; for functions that do
    not raise that is their composition in list order; without
    functions it is the decoded image itself.  The filesystem is left as
    it was. *)
Theorem PathImageSource_read_pipeline
    (p : string) (fns : option (list preprocessing_fn)) (nm : option string)
    (w : world) (buf : bytes) (img : ndarray) :
  files (w_fs w) !! p = Some buf ->
  imdecode buf = inr img ->
  fst (read (PathImageSource p fns nm) w)
    = pipeline (match fns with Some l => l | None => [] end) img /\
  (forall gs : list (ndarray -> ndarray),
     fns = Some (List.map total gs) ->
     fst (read (PathImageSource p fns nm) w)
       = inr (fold_left (fun x g => g x) gs img)) /\
  (fns = None \/ fns = Some [] ->
     fst (read (PathImageSource p fns nm) w) = inr img) /\
  w_fs (snd (read (PathImageSource p fns nm) w)) = w_fs w.
Proof.
  intros Hbuf Hdec.
  assert (Hread : fst (read (PathImageSource p fns nm) w)
                  = pipeline (match fns with Some l => l | None => [] end) img).
  { rewrite read_eq. unfold read_result, PathImageSource. simpl.
    now rewrite Hbuf, Hdec. }
  split; [exact Hread|]. split; [|split].
  - intros gs ->. rewrite Hread. apply pipeline_total.
  - intros [-> | ->]; rewrite Hread; reflexivity.
  - now rewrite read_eq.
Qed.

(** C7.  [paths2image_sources] returns one [PathImageSource] per path,
    in the order of the paths, all with the given preprocessing chain.
    The name of each is the file name of its path with the extension
    stripped.  The path is a directory part [d], empty or ending with a
    slash, followed by a file name [f] without slash.  When [f] is a
    stem [st], a dot and dot-free characters [e], where [st] is not made
    of dots only, the name is [st]; when [f] cannot be cut in this way
    (it has no dot, or nothing but dots before its last dot), it has no
    extension and the name is [f] itself.  The function takes no name,
    so no override can apply. *)
Theorem paths2image_sources_spec
    (paths : list string) (fns : option (list preprocessing_fn)) :
  length (paths2image_sources paths fns) = length paths /\
  Forall2
    (fun p s =>
       s = PathSource p (match fns with Some l => l | None => [] end) (name s) /\
       exists d f,
         p = d +:+ f /\
         (d = "" \/ PyStr.endswith os_path.sep d = true) /\
         PyStr.contains os_path.sep f = false /\
         (forall st e,
            f = st +:+ String os_path.extsep e ->
            PyStr.contains os_path.extsep e = false ->
            PyStr.all_char os_path.extsep st = false ->
            name s = st) /\
         ((forall st e,
             f = st +:+ String os_path.extsep e ->
             PyStr.contains os_path.extsep e = false ->
             PyStr.all_char os_path.extsep st = true) ->
          name s = f))
    paths (paths2image_sources paths fns).
Proof.
  assert (Hmap : forall acc,
             fold_left (fun image_sources path =>
                          image_sources ++ [PathImageSource path fns None])
                       paths acc
             = acc ++ List.map (fun p => PathImageSource p fns None) paths).
  { induction paths as [|p ps IH]; intros acc; simpl.
    - now rewrite app_nil_r.
    - rewrite IH. now rewrite <- app_assoc. }
  unfold paths2image_sources. rewrite Hmap. simpl.
  split; [apply length_map|].
  clear Hmap. induction paths as [|p ps IH]; simpl; constructor; [|exact IH].
  split; [reflexivity|].
  exists (os_path.head p), (os_path.basename p).
  split; [apply head_basename|]. split; [apply head_ends_with_sep|].
  split; [apply basename_no_sep|].
  change (name (PathImageSource p fns None))
    with (fst (os_path.splitext (os_path.basename p))).
  rewrite splitext_of_name by apply basename_no_sep.
  apply splitext_name_stem.
Qed.

Lemma imwrite_events_lookup cache n ext crops : forall i j crop,
  crops !! j = Some crop ->
  imwrite_events cache n ext i crops !! j
    = Some (EvImwrite (os_path.join cache (crop_filename n (i + j) ext)) crop).
Proof.
  induction crops as [|c0 rest IH]; intros i j crop Hj; [easy|].
  destruct j as [|j]; simpl in *.
  - injection Hj as ->. now rewrite Nat.add_0_r.
  - rewrite (IH (S i) j crop Hj).
    now replace (i + S j) with (S i + j) by lia.
Qed.

Lemma imwrite_events_length cache n ext crops : forall i,
  length (imwrite_events cache n ext i crops) = length crops.
Proof. induction crops; intros i; simpl; [|rewrite IHcrops]; reflexivity. Qed.

Lemma imwrite_events_no_cropper cache n ext crops : forall i,
  List.filter is_EvCropper (imwrite_events cache n ext i crops) = [].
Proof. induction crops; intros i; simpl; [|rewrite IHcrops]; reflexivity. Qed.

(** C1, as the code has it.  On a cold cache (the cache key file does
    not exist once the cache directory is there), when the original
    image reads as [img], the cropper returns [crops] and no
    [cv2.imwrite] raises, the calls of [save] are, in order: make the
    cache directory, read the original image, call the cropper (once, on
    [img]), call [cv2.imwrite] for crop [j] of [crops] for each [j] in
    turn, and move the cache entry.  The file name given for crop [j] is
    [crop_filename name j image_ext], the name without its last
    underscore-delimited segment, followed by an underscore, [j] in
    decimal and the extension; the path is [os.path.join] of the cache
    directory and that file name.  When the loop ends, just before the
    move, the file at the path of crop [j] holds the encoding of that crop
    if [cv2.imwrite] produced one and the path could be opened for
    writing (it is not a directory and its parent is one); otherwise
    [cv2.imwrite] has returned [False], which the loop does not look at,
    and the path is as it was.  Nothing else has changed. *)
Theorem CropImageSource_save_cold_populates
    (orig : ImageSource) (idx : Z) (c : cropper) (n : string)
    (save_dir image_ext cache_dir : string) (w : world)
    (fs1 : filesystem) (img : ndarray) (crops : list ndarray) :
  FS.makedirs cache_dir (w_fs w) = inr fs1 ->
  FS.path_exists fs1 (os_path.join cache_dir (n +:+ image_ext)) = false ->
  fst (read orig (mk_world fs1 (w_trace w ++ [EvMakedirs cache_dir]))) = inr img ->
  c img = inr crops ->
  encodes_all cache_dir n image_ext 0 crops = true ->
  let evs := imwrite_events cache_dir n image_ext 0 crops in
  let path := fun j => os_path.join cache_dir (crop_filename n j image_ext) in
  let key := os_path.join cache_dir (n +:+ image_ext) in
  let out := os_path.join save_dir (n +:+ image_ext) in
  let r := save (CropImageSource orig idx c n)
                save_dir image_ext (Some cache_dir) w in
  let w2 := mk_world fs1
              (w_trace w ++ [EvMakedirs cache_dir;
                             EvFromfile (root_path orig); EvCropper img]) in
  let w3 := snd (write_crops cache_dir n image_ext 0 crops w2) in
  w_trace (snd r) =
    w_trace w
      ++ [EvMakedirs cache_dir; EvFromfile (root_path orig); EvCropper img]
      ++ evs
      ++ [EvRename key out] /\
  length (List.filter is_EvCropper
            ([EvMakedirs cache_dir; EvFromfile (root_path orig); EvCropper img]
               ++ evs)) = 1 /\
  length evs = length crops /\
  (forall j crop, crops !! j = Some crop ->
     evs !! j = Some (EvImwrite (path j) crop)) /\
  (forall j b seg,
     n = b +:+ "_" +:+ seg -> PyStr.contains "_" seg = false ->
     crop_filename n j image_ext = b +:+ "_" +:+ PyStr.str j +:+ image_ext) /\
  (forall j,
     PyStr.contains "_" n = false ->
     crop_filename n j image_ext = "_" +:+ PyStr.str j +:+ image_ext) /\
  fst (write_crops cache_dir n image_ext 0 crops w2) = inr tt /\
  r = os_rename key out w3 /\
  dirs (w_fs w3) = dirs fs1 /\
  (forall j crop, crops !! j = Some crop ->
     files (w_fs w3) !! path j =
     match imwrite_encode (path j) crop with
     | inr (Some buf) =>
         if FS.writable fs1 (path j) then Some buf else files fs1 !! path j
     | _ => files fs1 !! path j
     end) /\
  (forall q, (forall j, j < length crops -> q <> path j) ->
     files (w_fs w3) !! q = files fs1 !! q).
Proof.
  intros Hmk Hcold Hread Hcrop Henc evs path key out r w2 w3.
  subst evs path key out r w2 w3. cbv beta.
  rewrite save_cached_eq. cbv zeta. rewrite Hmk, Hcold.
  rewrite read_eq in Hread. simpl in Hread. rewrite Hread, Hcrop.
  assert (Hw2 : add_event (EvCropper img)
                  (add_event (EvFromfile (root_path orig))
                     (mk_world fs1 (w_trace w ++ [EvMakedirs cache_dir])))
                = mk_world fs1
                    (w_trace w ++ [EvMakedirs cache_dir;
                                   EvFromfile (root_path orig);
                                   EvCropper img])).
  { unfold add_event. simpl. now rewrite <- !app_assoc. }
  rewrite Hw2, (write_crops_ok _ _ _ _ _ _ Henc). simpl snd. simpl w_fs.
  repeat match goal with |- _ /\ _ => split end.
  - rewrite os_rename_eq. simpl w_fs. simpl w_trace.
    destruct (FS.rename _ _ _); simpl; rewrite <- !app_assoc; reflexivity.
  - simpl. now rewrite imwrite_events_no_cropper.
  - apply imwrite_events_length.
  - intros j crop Hj. now rewrite (imwrite_events_lookup _ _ _ _ 0 j crop Hj).
  - intros j b seg Hn Hseg. unfold crop_filename.
    change ("_" +:+ seg) with (String "_"%char seg) in Hn. subst n.
    now rewrite (join_removelast_split "_" b seg Hseg).
  - intros j Hn. unfold crop_filename.
    now rewrite (removelast_split_single "_" n Hn).
  - reflexivity.
  - reflexivity.
  - apply populate_fs_dirs.
  - intros j crop Hj. rewrite populate_fs_files, (created_crop _ _ _ _ _ _ _ Hj).
    destruct (imwrite_encode _ crop) as [e|[buf|]]; try reflexivity.
    now destruct (FS.writable fs1 _).
  - intros q Hq. now rewrite populate_fs_files, created_elsewhere.
Qed.



(** C3, as the code has it.  Take crop sources over one original image
    and one cropper whose names share their base name and whose cache
    keys are pairwise distinct, and a cache directory that, once it is
    there, holds none of these cache keys; let the cache keys differ from
    the output paths, and the file of the original image from all the
    paths that the saves write, move or remove.  If the saves of all the
    sources, made one after the other with this cache directory, return,
    then afterwards the output file of every source exists and none of
    the cache keys does. *)
Theorem CropImageSource_group_moves_all
    (orig : ImageSource) (c : cropper) (members : list (Z * string))
    (save_dir image_ext cache_dir b : string) (w w' : world)
    (fs1 : filesystem) :
  let names := List.map snd members in
  let key := fun n => os_path.join cache_dir (n +:+ image_ext) in
  let out := fun n => os_path.join save_dir (n +:+ image_ext) in
  (forall n, In n names ->
     PyStr.join "_" (removelast (PyStr.split "_" n)) = b) ->
  NoDup (List.map key names) ->
  FS.makedirs cache_dir (w_fs w) = inr fs1 ->
  (forall n, In n names -> FS.path_exists fs1 (key n) = false) ->
  (forall n m, In n names -> In m names -> key n <> out m) ->
  (forall n, In n names ->
     root_path orig <> out n /\ root_path orig <> key n) ->
  (forall j, root_path orig <>
             os_path.join cache_dir
               (b +:+ "_" +:+ PyStr.str j +:+ image_ext)) ->
  save_all (crop_group orig c members) save_dir image_ext (Some cache_dir) w
    = (inr tt, w') ->
  forall n, In n names ->
    is_Some (files (w_fs w') !! out n) /\
    FS.path_exists (w_fs w') (key n) = false.
Proof.
  intros names key out. subst names key out. cbv beta.
  intros Hb Hnd Hmk Hclean Hsep Hroot Hrootp Hrun.
  destruct members as [|[i0 n0] rest]; [intros n []|].
  change (save_all (crop_group orig c ((i0, n0) :: rest))
                   save_dir image_ext (Some cache_dir))
    with (save (CropImageSource orig i0 c n0)
               save_dir image_ext (Some cache_dir) ;;;
          save_all (crop_group orig c rest)
                   save_dir image_ext (Some cache_dir)) in Hrun.
  apply bind_inv_inr in Hrun as ([] & w1 & Hsave & Hrun).
  assert (Hn0 : In n0 (List.map snd ((i0, n0) :: rest))) by now left.
  assert (Hdir : forall n,
             In n (List.map snd ((i0, n0) :: rest)) ->
             FS.isdir fs1 (os_path.join cache_dir (n +:+ image_ext)) = false).
  { intros n Hn. now apply (path_exists_false fs1 _), Hclean. }
  assert (Hfree : forall n,
             In n (List.map snd ((i0, n0) :: rest)) ->
             files fs1 !! os_path.join cache_dir (n +:+ image_ext) = None).
  { intros n Hn. now apply (path_exists_false fs1 _), Hclean. }
  simpl List.map in *.
  apply NoDup_cons in Hnd as [Hnotin Hnd].
  (* the first save finds the cache cold and populates it *)
  rewrite save_cached_eq in Hsave. cbv zeta in Hsave.
  rewrite Hmk, (Hclean n0 Hn0) in Hsave.
  destruct (read_result orig fs1) as [e|img] eqn:Hread; [discriminate|].
  destruct (c img) as [e|crops] eqn:Hcrop; [discriminate|].
  destruct (encodes_all cache_dir n0 image_ext 0 crops) eqn:Henc.
  2:{ destruct (write_crops_raises cache_dir n0 image_ext crops 0
                  (add_event (EvCropper img)
                     (add_event (EvFromfile (root_path orig))
                        (mk_world fs1 (w_trace w ++ [EvMakedirs cache_dir]))))
                  Henc) as (e & w3 & Hw).
      rewrite Hw in Hsave. discriminate. }
  rewrite (write_crops_ok _ _ _ _ _ _ Henc), os_rename_eq in Hsave.
  simpl w_fs in Hsave.
  set (fsP := populate_fs cache_dir n0 image_ext 0 crops fs1) in *.
  assert (HdP : dirs fsP = dirs fs1) by apply populate_fs_dirs.
  destruct (files fsP !! os_path.join cache_dir (n0 +:+ image_ext))
    as [buf|] eqn:Hk0.
  2:{ rewrite rename_missing in Hsave; [discriminate|].
      apply path_exists_false. split; [exact Hk0|].
      rewrite (isdir_dirs _ fs1 _ HdP). now apply Hdir. }
  rewrite (rename_file _ _ _ _ Hk0) in Hsave.
  destruct (FS.rename_blocked fsP _ _); [discriminate|].
  destruct (FS.isdir fsP (os_path.join save_dir (n0 +:+ image_ext)));
    [discriminate|].
  injection Hsave as <-.
  destruct (Hroot n0 Hn0) as [Hro Hrk].
  eapply (group_tail orig c save_dir image_ext cache_dir (w_fs w) fs1
            img crops n0 (n0 :: List.map snd rest)
            Hmk Hread Hcrop) with (done := [n0]) in Hrun.
  - destruct Hrun as [Hdw Hall]. intros n Hn.
    assert (Hn' : In n (List.map snd rest) \/ In n [n0]).
    { destruct Hn as [<-|Hn]; [right; now left|now left]. }
    destruct (Hall n Hn') as [Ho Hk]. split; [exact Ho|].
    apply path_exists_false. split; [exact Hk|].
    rewrite (isdir_dirs _ fs1 _ Hdw). now apply Hdir.
  - intros n Hn. now rewrite (Hb n Hn), (Hb n0 Hn0).
  - exact Hsep.
  - exact Hdir.
  - exact Hroot.
  - intros n Hn. now right.
  - intros n [<-|[]]. now left.
  - exact Hnd.
  - exact HdP.
  - simpl. rewrite moved_lookup by assumption.
    unfold fsP. rewrite populate_fs_files.
    destruct (created fs1 cache_dir n0 image_ext 0 crops (root_path orig))
      as [b0|] eqn:Hcr; [|reflexivity].
    apply created_inv in Hcr as (j & _ & _ & Hp & _).
    rewrite crop_filename_eq, (Hb n0 Hn0) in Hp. now destruct (Hrootp j).
  - intros n Hn. simpl.
    assert (Hne : os_path.join cache_dir (n +:+ image_ext)
                  <> os_path.join cache_dir (n0 +:+ image_ext)).
    { intros Heq. apply Hnotin. rewrite <- Heq. apply list_elem_of_In.
      now apply (in_map (fun m => os_path.join cache_dir (m +:+ image_ext))). }
    rewrite moved_lookup; [|exact Hne|apply Hsep; [now right|now left]].
    unfold fsP. rewrite populate_fs_files.
    destruct (created fs1 cache_dir n0 image_ext 0 crops _); [eauto|].
    apply Hfree. now right.
  - intros n [<-|[]]. simpl. split; [rewrite lookup_insert_eq; eauto|].
    rewrite lookup_insert_ne by (apply not_eq_sym, Hsep; assumption).
    apply lookup_delete_eq.
Qed.

End Claims.

(** ** What the code shows beyond that *)

Section Further.
Context `{Cv2} `{Mounts}.

Lemma pipeline_app (a b : list preprocessing_fn) (img : ndarray) :
  pipeline (a ++ b) img =
  match pipeline a img with
  | inr x => pipeline b x
  | inl e => inl e
  end.
Proof.
revert img. induction a as [|fn a IH]; intros img; [reflexivity|].
change ((fn :: a) ++ b) with (fn :: (a ++ b)). rewrite !pipeline_cons.
destruct (fn img) as [e|x]; [reflexivity|apply IH].
Qed.

Lemma paths2image_sources_map (paths : list string)
    (fns : option (list preprocessing_fn)) :
  paths2image_sources paths fns
  = List.map (fun p => PathImageSource p fns None) paths.
Proof.
unfold paths2image_sources.
assert (Hgen : forall acc,
           fold_left (fun image_sources path =>
                        image_sources ++ [PathImageSource path fns None])
                     paths acc
           = acc ++ List.map (fun p => PathImageSource p fns None) paths).
{ induction paths as [|p ps IH]; intros acc; simpl.
  - now rewrite app_nil_r.
  - rewrite IH. now rewrite <- app_assoc. }
apply Hgen.
Qed.

(** X1.  The name of a [PathImageSource] is empty exactly when no name, or
    the empty name, is given and the path has no last component: it is
    empty or ends with a slash.  An empty name given to [__init__] is
    ignored like a missing one. *)
Theorem PathImageSource_name_empty
    (p : string) (fns : option (list preprocessing_fn)) (nm : option string) :
  name (PathImageSource p fns nm) = "" <->
  (nm = None \/ nm = Some "") /\
  (p = "" \/ PyStr.endswith os_path.sep p = true).
Proof.
assert (Hderived :
          fst (os_path.splitext (os_path.basename p)) = "" <->
          p = "" \/ PyStr.endswith os_path.sep p = true).
{ rewrite splitext_of_name by apply basename_no_sep.
  rewrite splitext_name_fst_empty. apply basename_empty. }
unfold PathImageSource. simpl.
destruct nm as [[|c n]|].
- rewrite Hderived. intuition.
- split; [discriminate|]. intros [[?|?] _]; discriminate.
- rewrite Hderived. intuition.
Qed.

(** X2.  When [image_ext] is a dot followed by characters without dot or
    slash, and the last component of the name is not made of dots only,
    the extension that [_write] recovers from the output path is
    [image_ext] itself: [save] writes to [<save_dir>/<name><image_ext>] the
    buffer that [cv2.imencode(image_ext, img)] returns for the image read. *)
Theorem PathImageSource_save_encodes_with_image_ext
    (p : string) (fns : list preprocessing_fn) (nm save_dir e : string)
    (cache_dir : option string) (w : world)
    (img : ndarray) (ok : bool) (buf : bytes) :
  PyStr.contains os_path.extsep e = false ->
  PyStr.contains os_path.sep e = false ->
  PyStr.all_char os_path.extsep (os_path.basename nm) = false ->
  fst (read (PathSource p fns nm) w) = inr img ->
  imencode (String os_path.extsep e) img = inr (ok, buf) ->
  FS.writable (w_fs w)
    (os_path.join save_dir (nm +:+ String os_path.extsep e)) = true ->
  let r := save (PathSource p fns nm) save_dir (String os_path.extsep e)
                cache_dir w in
  fst r = inr tt /\
  files (w_fs (snd r))
    !! os_path.join save_dir (nm +:+ String os_path.extsep e) = Some buf.
Proof.
intros Hdot Hsep Hall Hread Henc Hw r. subst r.
rewrite read_eq in Hread. cbn [fst] in Hread.
rewrite save_path_eq. cbv zeta. rewrite Hread.
rewrite (write_ext _ _ _ Hdot Hsep), Hall, Henc.
apply write_error_None in Hw. rewrite Hw. simpl.
split; [reflexivity|apply lookup_insert_eq].
Qed.

(** X3.  Saving and loading again.  After [save] has returned, a
    [PathImageSource] made from the output path alone has the name of the
    source that was saved (for a name without slash that is not made of
    dots only), and its [read] is the decoding of the buffer that the
    encoder returned. *)
Theorem PathImageSource_save_then_load
    (p : string) (fns : list preprocessing_fn) (nm save_dir e : string)
    (cache_dir : option string) (w w' : world) :
  PyStr.contains os_path.extsep e = false ->
  PyStr.contains os_path.sep e = false ->
  PyStr.contains os_path.sep nm = false ->
  PyStr.all_char os_path.extsep nm = false ->
  save (PathSource p fns nm) save_dir (String os_path.extsep e) cache_dir w
    = (inr tt, w') ->
  let out := os_path.join save_dir (nm +:+ String os_path.extsep e) in
  name (PathImageSource out None None) = nm /\
  exists img ok buf,
    fst (read (PathSource p fns nm) w) = inr img /\
    imencode (String os_path.extsep e) img = inr (ok, buf) /\
    fst (read (PathImageSource out None None) w') = imdecode buf.
Proof.
intros Hdot Hsep Hnm Hall Hsave out. subst out.
split; [now apply derived_name_of_output|].
rewrite save_path_eq in Hsave. cbv zeta in Hsave.
rewrite read_eq. cbn [fst].
destruct (read_result (PathSource p fns nm) (w_fs w)) as [e0|img];
  [discriminate|].
rewrite (write_ext _ _ _ Hdot Hsep) in Hsave.
destruct (basename_of_name _ Hnm) as [Hb _]. rewrite Hb, Hall in Hsave.
destruct (imencode (String os_path.extsep e) img) as [e0|[ok buf]] eqn:Henc;
  [discriminate|].
destruct (FS.write_error (w_fs w) _) as [e0|]; [discriminate|].
injection Hsave as <-.
exists img, ok, buf. split; [reflexivity|]. split; [exact Henc|].
rewrite read_eq. unfold read_result, PathImageSource. simpl.
rewrite lookup_insert_eq. now destruct (imdecode buf).
Qed.

(** X4.  Whatever its outcome, [PathImageSource.save] creates no
    directory and leaves every file other than
    [<save_dir>/<name><image_ext>] as it was. *)
Theorem PathImageSource_save_frame
    (p : string) (fns : list preprocessing_fn) (nm save_dir image_ext : string)
    (cache_dir : option string) (w : world) :
  let r := save (PathSource p fns nm) save_dir image_ext cache_dir w in
  dirs (w_fs (snd r)) = dirs (w_fs w) /\
  forall q, q <> os_path.join save_dir (nm +:+ image_ext) ->
    files (w_fs (snd r)) !! q = files (w_fs w) !! q.
Proof.
cbv zeta. rewrite save_path_eq. cbv zeta.
destruct (read_result (PathSource p fns nm) (w_fs w)) as [e|img];
  [now split|].
destruct (imencode _ img) as [e|[ok buf]]; [now split|].
destruct (FS.write_error (w_fs w) _) as [e|]; [now split|].
simpl. split; [reflexivity|]. intros q Hq. now apply lookup_insert_ne.
Qed.

(** X5.  The preprocessing chain composes: reading through the chain
    [a ++ b] is reading through [a] and then running [b] on the result,
    and once a function of [a] has raised no function after it is
    applied. *)
Theorem PathImageSource_read_chain_app
    (p : string) (a b : list preprocessing_fn) (nm : string) (w : world) :
  fst (read (PathSource p (a ++ b) nm) w) =
  match fst (read (PathSource p a nm) w) with
  | inr x => pipeline b x
  | inl e => inl e
  end.
Proof.
rewrite !read_eq. unfold read_result. simpl.
destruct (files (w_fs w) !! p) as [buf|]; [|reflexivity].
destruct (imdecode buf) as [e|img]; [reflexivity|].
apply pipeline_app.
Qed.

(** X6.  [paths2image_sources] works path by path: the sources of a
    concatenation of two lists are the sources of the first followed by
    the sources of the second, and an empty list gives no source. *)
Theorem paths2image_sources_app
    (paths1 paths2 : list string) (fns : option (list preprocessing_fn)) :
  paths2image_sources (paths1 ++ paths2) fns
  = paths2image_sources paths1 fns ++ paths2image_sources paths2 fns /\
  paths2image_sources [] fns = [].
Proof.
rewrite !paths2image_sources_map. split; [apply map_app|reflexivity].
Qed.

(** X7.  What a cold save puts out is named by [name], not by [idx].
    When [save] returns on a cold cache, the name is its base name, an
    underscore and the position [k] of one of the crops, and the output
    file holds the encoding of crop [k]; the cache entry itself is gone. *)
Theorem CropImageSource_save_cold_output
    (orig : ImageSource) (idx : Z) (c : cropper) (n : string)
    (save_dir image_ext cache_dir : string) (w w' : world) (fs1 : filesystem) :
  FS.makedirs cache_dir (w_fs w) = inr fs1 ->
  FS.path_exists fs1 (os_path.join cache_dir (n +:+ image_ext)) = false ->
  save (CropImageSource orig idx c n) save_dir image_ext (Some cache_dir) w
    = (inr tt, w') ->
  let key := os_path.join cache_dir (n +:+ image_ext) in
  let out := os_path.join save_dir (n +:+ image_ext) in
  exists img crops k crop buf,
    fst (read orig (mk_world fs1 (w_trace w ++ [EvMakedirs cache_dir])))
      = inr img /\
    c img = inr crops /\
    crops !! k = Some crop /\
    n = PyStr.join "_" (removelast (PyStr.split "_" n))
          +:+ "_" +:+ PyStr.str k /\
    imwrite_encode key crop = inr (Some buf) /\
    files (w_fs w') !! out = Some buf /\
    (key <> out -> files (w_fs w') !! key = None).
Proof.
intros Hmk Hcold Hsave key out. subst key out.
rewrite save_cached_eq in Hsave. cbv zeta in Hsave.
rewrite Hmk, Hcold in Hsave. rewrite read_eq. cbn [fst w_fs].
destruct (read_result orig fs1) as [e|img]; [discriminate|].
destruct (c img) as [e|crops] eqn:Hcrop; [discriminate|].
destruct (encodes_all cache_dir n image_ext 0 crops) eqn:Henc.
2:{ destruct (write_crops_raises cache_dir n image_ext crops 0
                (add_event (EvCropper img)
                   (add_event (EvFromfile (root_path orig))
                      (mk_world fs1 (w_trace w ++ [EvMakedirs cache_dir]))))
                Henc) as (e & w3 & Hw).
    rewrite Hw in Hsave. discriminate. }
rewrite (write_crops_ok _ _ _ _ _ _ Henc), os_rename_eq in Hsave.
simpl w_fs in Hsave.
apply path_exists_false in Hcold as [Hnone Hdir].
set (fsP := populate_fs cache_dir n image_ext 0 crops fs1) in *.
destruct (files fsP !! os_path.join cache_dir (n +:+ image_ext))
  as [buf|] eqn:Hkey.
2:{ rewrite rename_missing in Hsave; [discriminate|].
    apply path_exists_false. split; [exact Hkey|].
    rewrite (isdir_dirs _ fs1); [exact Hdir|apply populate_fs_dirs]. }
rewrite (rename_file _ _ _ _ Hkey) in Hsave.
destruct (FS.rename_blocked fsP _ _); [discriminate|].
destruct (FS.isdir fsP _); [discriminate|].
injection Hsave as <-.
unfold fsP in Hkey. rewrite populate_fs_files, Hnone in Hkey.
destruct (created fs1 cache_dir n image_ext 0 crops
            (os_path.join cache_dir (n +:+ image_ext))) as [b|] eqn:Hcr;
  [|discriminate].
injection Hkey as ->.
apply created_inv in Hcr as (k & crop & Hk & Hp & He & _).
exists img, crops, k, crop, buf.
split; [reflexivity|]. split; [exact Hcrop|]. split; [exact Hk|].
split; [now apply key_eq_crop_path in Hp|]. split; [exact He|].
simpl. split; [apply lookup_insert_eq|].
intros Hne. rewrite lookup_insert_ne by congruence. apply lookup_delete_eq.
Qed.



(** X10.  What a save with a cache directory can touch.  When the cache
    key is not a directory, then whatever the outcome of [save], the only
    directories it adds are those of the cache directory, and the only
    files it changes are among the cache key, the output path and the
    cache files of the crops. *)
Theorem CropImageSource_save_frame
    (orig : ImageSource) (idx : Z) (c : cropper) (n : string)
    (save_dir image_ext cache_dir : string) (w : world) (fs1 : filesystem) :
  FS.makedirs cache_dir (w_fs w) = inr fs1 ->
  FS.isdir fs1 (os_path.join cache_dir (n +:+ image_ext)) = false ->
  let r := save (CropImageSource orig idx c n)
                save_dir image_ext (Some cache_dir) w in
  dirs (w_fs (snd r)) = dirs fs1 /\
  forall q,
    q <> os_path.join cache_dir (n +:+ image_ext) ->
    q <> os_path.join save_dir (n +:+ image_ext) ->
    (forall j, q <> os_path.join cache_dir (crop_filename n j image_ext)) ->
    files (w_fs (snd r)) !! q = files (w_fs w) !! q.
Proof.
intros Hmk Hdir r. subst r.
destruct (makedirs_inr _ _ _ Hmk) as [Hf _].
assert (Hmove : forall fs tr,
          dirs fs = dirs fs1 ->
          let r := os_rename (os_path.join cache_dir (n +:+ image_ext))
                             (os_path.join save_dir (n +:+ image_ext))
                             (mk_world fs tr) in
          dirs (w_fs (snd r)) = dirs fs1 /\
          forall q,
            q <> os_path.join cache_dir (n +:+ image_ext) ->
            q <> os_path.join save_dir (n +:+ image_ext) ->
            files (w_fs (snd r)) !! q = files fs !! q).
{ intros fs tr Hd. cbv zeta. rewrite os_rename_eq. simpl w_fs.
  destruct (files fs !! os_path.join cache_dir (n +:+ image_ext))
    as [buf|] eqn:Hkey.
  - rewrite (rename_file _ _ _ _ Hkey).
    destruct (FS.rename_blocked fs _ _); [now split|].
    destruct (FS.isdir fs _); [now split|].
    simpl. split; [exact Hd|]. intros q Hk Ho.
    rewrite lookup_insert_ne by congruence.
    now rewrite lookup_delete_ne by congruence.
  - rewrite rename_missing; [now split|].
    apply path_exists_false. split; [exact Hkey|].
    now rewrite (isdir_dirs _ fs1 _ Hd). }
rewrite save_cached_eq. cbv zeta. rewrite Hmk.
destruct (FS.path_exists fs1 _).
- destruct (Hmove fs1 (w_trace w ++ [EvMakedirs cache_dir]) eq_refl)
    as [Hd Hq].
  split; [exact Hd|]. intros q Hk Ho _. now rewrite (Hq q Hk Ho), Hf.
- destruct (read_result orig fs1) as [e|img]; [split; [reflexivity|]|].
  { intros q _ _ _. simpl. now rewrite Hf. }
  destruct (c img) as [e|crops]; [split; [reflexivity|]|].
  { intros q _ _ _. simpl. now rewrite Hf. }
  destruct (write_crops_frame cache_dir n image_ext crops 0
              (add_event (EvCropper img)
                 (add_event (EvFromfile (root_path orig))
                    (mk_world fs1 (w_trace w ++ [EvMakedirs cache_dir])))))
    as [Hd3 Hf3].
  destruct (write_crops cache_dir n image_ext 0 crops _) as [[e|[]] w3];
    simpl in Hd3, Hf3.
  + simpl. split; [exact Hd3|]. intros q _ _ Hj. now rewrite (Hf3 q Hj), Hf.
  + destruct w3 as [fs3 tr3]. simpl in Hd3, Hf3.
    destruct (Hmove fs3 tr3 Hd3) as [Hd Hq].
    split; [exact Hd|]. intros q Hk Ho Hj.
    now rewrite (Hq q Hk Ho), (Hf3 q Hj), Hf.
Qed.

(** X11.  The cache does what it is there for.  When the saves of a
    group return (a group as in C3: shared base name, distinct cache
    keys, none of them in the cache beforehand, keys apart from outputs,
    the original's file apart from both), the calls made are: for the
    first source, makedirs, one read of the original, one call of the
    cropper, one [cv2.imwrite] per crop and the move; for every later
    source, makedirs and the move.  The original is read once and cropped
    once, however many sources there are. *)
Theorem CropImageSource_group_crops_once
    (orig : ImageSource) (c : cropper)
    (i0 : Z) (n0 : string) (rest : list (Z * string))
    (save_dir image_ext cache_dir b : string) (w w' : world)
    (fs1 : filesystem) :
  let names := n0 :: List.map snd rest in
  let key := fun n => os_path.join cache_dir (n +:+ image_ext) in
  let out := fun n => os_path.join save_dir (n +:+ image_ext) in
  (forall n, In n names ->
     PyStr.join "_" (removelast (PyStr.split "_" n)) = b) ->
  NoDup (List.map key names) ->
  FS.makedirs cache_dir (w_fs w) = inr fs1 ->
  (forall n, In n names -> FS.path_exists fs1 (key n) = false) ->
  (forall n m, In n names -> In m names -> key n <> out m) ->
  (forall n, In n names ->
     root_path orig <> out n /\ root_path orig <> key n) ->
  (forall j, root_path orig <>
             os_path.join cache_dir
               (b +:+ "_" +:+ PyStr.str j +:+ image_ext)) ->
  save_all (crop_group orig c ((i0, n0) :: rest))
           save_dir image_ext (Some cache_dir) w = (inr tt, w') ->
  exists img crops evs,
    fst (read orig (mk_world fs1 (w_trace w ++ [EvMakedirs cache_dir])))
      = inr img /\
    c img = inr crops /\
    w_trace w' = w_trace w ++ evs /\
    evs = [EvMakedirs cache_dir; EvFromfile (root_path orig); EvCropper img]
            ++ imwrite_events cache_dir n0 image_ext 0 crops
            ++ [EvRename (key n0) (out n0)]
            ++ move_events cache_dir save_dir image_ext (List.map snd rest) /\
    length (List.filter is_EvCropper evs) = 1 /\
    length (List.filter is_EvFromfile evs) = 1 /\
    length (List.filter is_EvRename evs) = S (length rest).
Proof.
intros names key out. subst names key out. cbv beta.
intros Hb Hnd Hmk Hclean Hsep Hroot Hrootp Hrun.
destruct (group_run orig c save_dir image_ext cache_dir b i0 n0 rest w w' fs1
            Hb Hnd Hmk Hclean Hsep Hroot Hrootp Hrun)
  as (img & crops & Hread & Hcrop & _ & Htr & _).
exists img, crops. eexists. rewrite read_eq. cbn [fst w_fs].
split; [exact Hread|]. split; [exact Hcrop|].
split; [exact Htr|]. split; [reflexivity|].
rewrite !List.filter_app, !length_app.
rewrite !filter_imwrite_events by reflexivity.
rewrite !filter_move_events by reflexivity.
rewrite renames_of_move_events, length_map. simpl. repeat split; lia.
Qed.

(** X12.  What a completed group has put out.  When the saves of such a
    group return and no two of its sources share an output path, every
    name is the shared base name, an underscore and the position [k] of
    one of the crops, and the output file of that source holds the
    encoding of crop [k]: the positions in the names, not the indices of
    the sources, decide which crop goes where. *)
Theorem CropImageSource_group_outputs
    (orig : ImageSource) (c : cropper)
    (i0 : Z) (n0 : string) (rest : list (Z * string))
    (save_dir image_ext cache_dir b : string) (w w' : world)
    (fs1 : filesystem) :
  let names := n0 :: List.map snd rest in
  let key := fun n => os_path.join cache_dir (n +:+ image_ext) in
  let out := fun n => os_path.join save_dir (n +:+ image_ext) in
  (forall n, In n names ->
     PyStr.join "_" (removelast (PyStr.split "_" n)) = b) ->
  NoDup (List.map key names) ->
  NoDup (List.map out names) ->
  FS.makedirs cache_dir (w_fs w) = inr fs1 ->
  (forall n, In n names -> FS.path_exists fs1 (key n) = false) ->
  (forall n m, In n names -> In m names -> key n <> out m) ->
  (forall n, In n names ->
     root_path orig <> out n /\ root_path orig <> key n) ->
  (forall j, root_path orig <>
             os_path.join cache_dir
               (b +:+ "_" +:+ PyStr.str j +:+ image_ext)) ->
  save_all (crop_group orig c ((i0, n0) :: rest))
           save_dir image_ext (Some cache_dir) w = (inr tt, w') ->
  exists img crops,
    fst (read orig (mk_world fs1 (w_trace w ++ [EvMakedirs cache_dir])))
      = inr img /\
    c img = inr crops /\
    forall n, In n names ->
      exists k crop buf,
        crops !! k = Some crop /\
        n = b +:+ "_" +:+ PyStr.str k /\
        imwrite_encode (key n) crop = inr (Some buf) /\
        files (w_fs w') !! out n = Some buf.
Proof.
intros names key out. subst names key out. cbv beta.
intros Hb Hnd Hndo Hmk Hclean Hsep Hroot Hrootp Hrun.
destruct (group_run orig c save_dir image_ext cache_dir b i0 n0 rest w w' fs1
            Hb Hnd Hmk Hclean Hsep Hroot Hrootp Hrun)
  as (img & crops & Hread & Hcrop & _ & _ & _ & Hall).
exists img, crops. rewrite read_eq. cbn [fst w_fs].
split; [exact Hread|]. split; [exact Hcrop|].
intros n Hn. destruct (Hall n Hn) as (_ & [buf Hbuf] & Hout).
destruct (populated_key_is_crop cache_dir n n0 image_ext crops fs1 buf)
  as (k & crop & Hk & Hname & Henc).
- now apply (path_exists_false fs1 _), Hclean.
- rewrite (Hb n Hn). symmetry. apply Hb. now left.
- exact Hbuf.
- exists k, crop, buf. split; [exact Hk|].
  split; [now rewrite <- (Hb n Hn)|]. split; [exact Henc|].
  rewrite Hout; [exact Hbuf|].
  intros m Hm Hne Heq. apply Hne.
  now apply (NoDup_map_inj
               (fun n => os_path.join save_dir (n +:+ image_ext))
               (n0 :: List.map snd rest)).
Qed.

(** X13.  What a completed group leaves in the cache.  A crop that the
    populate step has put on disk and whose cache file is neither a cache
    key nor an output path of the group is still in the cache directory,
    unchanged, when all the saves have returned: the crops that no source
    of the group asks for are never cleaned up. *)
Theorem CropImageSource_group_leaves_siblings
    (orig : ImageSource) (c : cropper)
    (i0 : Z) (n0 : string) (rest : list (Z * string))
    (save_dir image_ext cache_dir b : string) (w w' : world)
    (fs1 : filesystem) (img : ndarray) (crops : list ndarray) :
  let names := n0 :: List.map snd rest in
  let key := fun n => os_path.join cache_dir (n +:+ image_ext) in
  let out := fun n => os_path.join save_dir (n +:+ image_ext) in
  let path := fun j => os_path.join cache_dir
                         (b +:+ "_" +:+ PyStr.str j +:+ image_ext) in
  (forall n, In n names ->
     PyStr.join "_" (removelast (PyStr.split "_" n)) = b) ->
  NoDup (List.map key names) ->
  FS.makedirs cache_dir (w_fs w) = inr fs1 ->
  (forall n, In n names -> FS.path_exists fs1 (key n) = false) ->
  (forall n m, In n names -> In m names -> key n <> out m) ->
  (forall n, In n names ->
     root_path orig <> out n /\ root_path orig <> key n) ->
  (forall j, root_path orig <> path j) ->
  fst (read orig (mk_world fs1 (w_trace w ++ [EvMakedirs cache_dir])))
    = inr img ->
  c img = inr crops ->
  save_all (crop_group orig c ((i0, n0) :: rest))
           save_dir image_ext (Some cache_dir) w = (inr tt, w') ->
  forall j crop buf,
    crops !! j = Some crop ->
    imwrite_encode (path j) crop = inr (Some buf) ->
    FS.writable fs1 (path j) = true ->
    (forall n, In n names -> path j <> key n /\ path j <> out n) ->
    files (w_fs w') !! path j = Some buf.
Proof.
intros names key out path. subst names key out path. cbv beta.
intros Hb Hnd Hmk Hclean Hsep Hroot Hrootp Hread Hcrop Hrun.
destruct (group_run orig c save_dir image_ext cache_dir b i0 n0 rest w w' fs1
            Hb Hnd Hmk Hclean Hsep Hroot Hrootp Hrun)
  as (img' & crops' & Hread' & Hcrop' & _ & _ & Hfr & _).
rewrite read_eq in Hread. cbn [fst w_fs] in Hread.
rewrite Hread in Hread'. injection Hread' as <-.
rewrite Hcrop in Hcrop'. injection Hcrop' as <-.
intros j crop buf Hj Henc Hw Hother.
assert (Hpath : os_path.join cache_dir
                  (b +:+ "_" +:+ PyStr.str j +:+ image_ext)
                = os_path.join cache_dir (crop_filename n0 j image_ext)).
{ unfold crop_filename. now rewrite (Hb n0 (or_introl eq_refl)). }
rewrite (Hfr _ Hother), Hpath, populate_fs_files.
rewrite Hpath in Henc, Hw.
pose proof (created_at fs1 cache_dir n0 image_ext crops 0 j crop buf Hj)
  as Hc.
change (0 + j) with j in Hc. now rewrite (Hc Henc Hw).
Qed.

(** X14.  The order of the saves does not matter.  Two runs from the
    same world over the same names, in any two orders and with any
    indices, that both return leave the same filesystem (for a group as
    in C3 whose sources have pairwise distinct output paths). *)
Theorem CropImageSource_group_order_irrelevant
    (orig : ImageSource) (c : cropper)
    (i1 : Z) (n1 : string) (rest1 : list (Z * string))
    (i2 : Z) (n2 : string) (rest2 : list (Z * string))
    (save_dir image_ext cache_dir b : string) (w w1 w2 : world)
    (fs1 : filesystem) :
  let names := n1 :: List.map snd rest1 in
  let key := fun n => os_path.join cache_dir (n +:+ image_ext) in
  let out := fun n => os_path.join save_dir (n +:+ image_ext) in
  Permutation names (n2 :: List.map snd rest2) ->
  (forall n, In n names ->
     PyStr.join "_" (removelast (PyStr.split "_" n)) = b) ->
  NoDup (List.map key names) ->
  NoDup (List.map out names) ->
  FS.makedirs cache_dir (w_fs w) = inr fs1 ->
  (forall n, In n names -> FS.path_exists fs1 (key n) = false) ->
  (forall n m, In n names -> In m names -> key n <> out m) ->
  (forall n, In n names ->
     root_path orig <> out n /\ root_path orig <> key n) ->
  (forall j, root_path orig <>
             os_path.join cache_dir
               (b +:+ "_" +:+ PyStr.str j +:+ image_ext)) ->
  save_all (crop_group orig c ((i1, n1) :: rest1))
           save_dir image_ext (Some cache_dir) w = (inr tt, w1) ->
  save_all (crop_group orig c ((i2, n2) :: rest2))
           save_dir image_ext (Some cache_dir) w = (inr tt, w2) ->
  w_fs w1 = w_fs w2.
Proof.
intros names key out. subst names key out. cbv beta.
intros Hperm Hb Hnd Hndo Hmk Hclean Hsep Hroot Hrootp Hrun1 Hrun2.
assert (Hin : forall n, In n (n2 :: List.map snd rest2) ->
                        In n (n1 :: List.map snd rest1)).
{ intros n. apply Permutation_in. now apply Permutation_sym. }
assert (Hin' : forall n, In n (n1 :: List.map snd rest1) ->
                         In n (n2 :: List.map snd rest2)).
{ intros n. now apply Permutation_in. }
assert (Hnd2 : NoDup (List.map
                        (fun n => os_path.join cache_dir (n +:+ image_ext))
                        (n2 :: List.map snd rest2))).
{ pose proof (Permutation_map
                (fun n => os_path.join cache_dir (n +:+ image_ext)) Hperm)
    as Hpm.
  now rewrite <- Hpm. }
destruct (group_run orig c save_dir image_ext cache_dir b i1 n1 rest1 w w1 fs1
            Hb Hnd Hmk Hclean Hsep Hroot Hrootp Hrun1)
  as (img & crops & Hread & Hcrop & Hd1 & _ & Hfr1 & Hall1).
destruct (group_run orig c save_dir image_ext cache_dir b i2 n2 rest2 w w2 fs1
            (fun n Hn => Hb n (Hin n Hn)) Hnd2 Hmk
            (fun n Hn => Hclean n (Hin n Hn))
            (fun n m Hn Hm => Hsep n m (Hin n Hn) (Hin m Hm))
            (fun n Hn => Hroot n (Hin n Hn)) Hrootp Hrun2)
  as (img' & crops' & Hread' & Hcrop' & Hd2 & _ & Hfr2 & Hall2).
rewrite Hread in Hread'. injection Hread' as <-.
rewrite Hcrop in Hcrop'. injection Hcrop' as <-.
assert (HP : populate_fs cache_dir n2 image_ext 0 crops fs1
             = populate_fs cache_dir n1 image_ext 0 crops fs1).
{ apply populate_fs_same_base.
  rewrite (Hb n1 (or_introl eq_refl)). apply Hb, Hin. now left. }
rewrite HP in Hfr2, Hall2.
assert (Hinj : forall n m,
          In n (n1 :: List.map snd rest1) ->
          In m (n1 :: List.map snd rest1) -> m <> n ->
          os_path.join save_dir (m +:+ image_ext)
          <> os_path.join save_dir (n +:+ image_ext)).
{ intros n m Hn Hm Hne Heq. apply Hne.
  now apply (NoDup_map_inj
               (fun n => os_path.join save_dir (n +:+ image_ext))
               (n1 :: List.map snd rest1)). }
destruct (w_fs w1) as [f1 d1], (w_fs w2) as [f2 d2]. simpl in *.
f_equal; [|congruence].
apply map_eq. intros q.
destruct (in_dec string_dec q
            (List.map (fun n => os_path.join cache_dir (n +:+ image_ext))
                      (n1 :: List.map snd rest1))) as [Hk|Hk].
{ apply in_map_iff in Hk as (n & <- & Hn).
  destruct (Hall1 n Hn) as (-> & _). now destruct (Hall2 n (Hin' n Hn)). }
destruct (in_dec string_dec q
            (List.map (fun n => os_path.join save_dir (n +:+ image_ext))
                      (n1 :: List.map snd rest1))) as [Ho|Ho].
{ apply in_map_iff in Ho as (n & <- & Hn).
  destruct (Hall1 n Hn) as (_ & _ & ->); [|now intros m Hm; apply Hinj].
  destruct (Hall2 n (Hin' n Hn)) as (_ & _ & ->); [reflexivity|].
  intros m Hm. apply Hinj; auto. }
assert (Hq : forall n, In n (n1 :: List.map snd rest1) ->
                       q <> os_path.join cache_dir (n +:+ image_ext) /\
                       q <> os_path.join save_dir (n +:+ image_ext)).
{ intros n Hn. split; intros ->; [apply Hk|apply Ho];
    now apply (in_map (fun n => _ (n +:+ image_ext))). }
rewrite (Hfr1 q Hq). symmetry. apply Hfr2. intros n Hn. apply Hq, Hin, Hn.
Qed.

(** X15.  Saving the same crop a second time.  A save that has returned
    has consumed its cache entry (for a cache key that is not a directory
    and an output path other than the cache key); so a second save of the
    same source is never served from the cache: it makes sure of the
    cache directory, finds the cache cold and reads the original image
    again. *)
Theorem CropImageSource_save_again_recomputes
    (orig : ImageSource) (idx : Z) (c : cropper) (n : string)
    (save_dir image_ext cache_dir : string) (w w1 : world) (fs1 : filesystem) :
  let key := os_path.join cache_dir (n +:+ image_ext) in
  let out := os_path.join save_dir (n +:+ image_ext) in
  let s := CropImageSource orig idx c n in
  FS.makedirs cache_dir (w_fs w) = inr fs1 ->
  FS.isdir fs1 key = false ->
  key <> out ->
  save s save_dir image_ext (Some cache_dir) w = (inr tt, w1) ->
  FS.path_exists (w_fs w1) key = false /\
  exists evs,
    w_trace (snd (save s save_dir image_ext (Some cache_dir) w1))
    = w_trace w1
        ++ EvMakedirs cache_dir :: EvFromfile (root_path orig) :: evs.
Proof.
intros key out s. subst key out s.
intros Hmk Hdir Hne Hsave.
destruct (save_cached_inr _ _ _ _ _ _ _ _ _ _ Hmk Hdir Hsave)
  as (fs3 & buf & Hd3 & Hch & _ & Hw & Hfs).
destruct (makedirs_inr _ _ _ Hmk) as [Hf1 _].
destruct (proj1 (makedirs_inr_iff cache_dir (w_fs w)) (ex_intro _ fs1 Hmk))
  as (Hcne & Hp0 & Hanc0).
assert (Hgone : files (w_fs w1) !! os_path.join cache_dir (n +:+ image_ext)
                = None).
{ rewrite Hfs. simpl. rewrite lookup_insert_ne by congruence.
  apply lookup_delete_eq. }
assert (Hcold : forall fs', files fs' = files (w_fs w1) ->
                            dirs fs' = dirs fs1 ->
          FS.path_exists fs' (os_path.join cache_dir (n +:+ image_ext))
          = false).
{ intros fs' Hf' Hd'. apply path_exists_false. split; [now rewrite Hf'|].
  now rewrite (isdir_dirs fs' fs1 _ Hd'). }
split; [apply Hcold; [reflexivity|now rewrite Hfs]|].
assert (Hfree : forall a,
          a = PyStr.rstrip os_path.sep cache_dir \/
          In a (FS.ancestors cache_dir) ->
          files (w_fs w) !! a = None ->
          files (w_fs w1) !! a = None).
{ intros a Ha Ha0. rewrite Hfs. simpl.
  destruct (String.eqb_spec a (os_path.join save_dir (n +:+ image_ext)))
    as [->|Hao].
  { rewrite (not_writable_dir _ _ _ _ Hmk Ha fs3 Hd3) in Hw. discriminate. }
  rewrite lookup_insert_ne by congruence.
  destruct (String.eqb_spec a (os_path.join cache_dir (n +:+ image_ext)))
    as [->|Hak]; [apply lookup_delete_eq|].
  rewrite lookup_delete_ne by congruence.
  destruct (Hch a) as [->|Hwa]; [now rewrite Hf1|].
  rewrite (not_writable_dir _ _ _ _ Hmk Ha fs1 eq_refl) in Hwa. discriminate. }
destruct (proj2 (makedirs_inr_iff cache_dir (w_fs w1))) as [fs1' Hmk'].
{ split; [exact Hcne|]. split.
  - apply Hfree; [now left|exact Hp0].
  - intros a Ha. apply Hfree; [now right|now apply Hanc0]. }
assert (Hdw : dirs (w_fs w1) = dirs fs1) by now rewrite Hfs.
destruct (makedirs_again _ _ _ _ _ Hmk Hdw Hmk') as [Hf' Hd'].
rewrite save_cached_eq. cbv zeta. rewrite Hmk', (Hcold fs1' Hf' Hd').
destruct (read_result orig fs1') as [e|img].
{ exists []. simpl. now rewrite <- app_assoc. }
destruct (c img) as [e|crops].
{ exists [EvCropper img]. simpl. now rewrite <- !app_assoc. }
destruct (write_crops_trace cache_dir n image_ext crops 0
            (add_event (EvCropper img)
               (add_event (EvFromfile (root_path orig))
                  (mk_world fs1' (w_trace w1 ++ [EvMakedirs cache_dir])))))
  as [evs Hevs].
destruct (write_crops cache_dir n image_ext 0 crops _) as [[e|[]] w3];
  simpl in Hevs.
- exists (EvCropper img :: evs). simpl. rewrite Hevs.
  now rewrite <- !app_assoc.
- rewrite os_rename_eq.
  destruct (FS.rename _ _ (w_fs w3)); simpl; rewrite Hevs;
    eexists (EvCropper img :: evs ++ _); rewrite <- !app_assoc; reflexivity.
Qed.

End Further.

(** ** The properties on the worked scenario *)

Import Scenario.
Import Stdlib.Init.Byte.

(** [cat_2] saved into a warm cache. *)
Lemma warm_skips_cropper_on_scenario :
  FS.path_exists fs_warm (os_path.join "/cache" ("cat_2" +:+ ".jpg")) = true /\
  exists evs : list event,
    w_trace (snd (save (CropImageSource cat 2 split_into_4 "cat_2")
                       "/out" ".jpg" (Some "/cache") (mk_world fs_warm [])))
      = [] ++ evs /\
    (evs = [EvMakedirs "/cache"] \/
     evs = [EvMakedirs "/cache";
            EvRename (os_path.join "/cache" ("cat_2" +:+ ".jpg"))
                     (os_path.join "/out" ("cat_2" +:+ ".jpg"))]) /\
    forallb (fun ev => negb (is_EvCropper ev || is_EvFromfile ev)) evs = true.
Proof.
  split; [vm_compute; reflexivity|].
  apply (CropImageSource_save_warm_skips_cropper
           cat 2 split_into_4 "cat_2" "/out" ".jpg" "/cache"
           (mk_world fs_warm [])).
  vm_compute; reflexivity.
Defined.

(** [cat_2] saved into a cold cache: the scenario of the specification. *)
Lemma cold_populates_on_scenario :
  let fs1 := {| files := files fs0;
                dirs := dirs fs0 ∪ list_to_set (FS.ancestors "/cache") |} in
  let crops := [[x00]; [x01]; [x02]; [x03]] in
  let evs := imwrite_events "/cache" "cat_2" ".jpg" 0 crops in
  let w' := snd (save (CropImageSource cat 2 split_into_4 "cat_2")
                      "/out" ".jpg" (Some "/cache") w0) in
  let w3 := snd (write_crops "/cache" "cat_2" ".jpg" 0 crops
                   (mk_world fs1 (w_trace w0 ++ [EvMakedirs "/cache";
                                                 EvFromfile (root_path cat);
                                                 EvCropper [x2a]]))) in
  FS.makedirs "/cache" (w_fs w0) = inr fs1 /\
  w_trace w' =
    w_trace w0
      ++ [EvMakedirs "/cache"; EvFromfile (root_path cat); EvCropper [x2a]]
      ++ evs
      ++ [EvRename (os_path.join "/cache" ("cat_2" +:+ ".jpg"))
                   (os_path.join "/out" ("cat_2" +:+ ".jpg"))] /\
  length evs = length crops /\
  files (w_fs w3) !! "/cache/cat_0.jpg" = Some [x00] /\
  files (w_fs w3) !! "/cache/cat_3.jpg" = Some [x03] /\
  files (w_fs w3) !! "/in/cat.jpg" = Some [x2a].
Proof.
  cbv zeta.
  pose proof (CropImageSource_save_cold_populates
                cat 2 split_into_4 "cat_2" "/out" ".jpg" "/cache" w0
                {| files := files fs0;
                   dirs := dirs fs0 ∪ list_to_set (FS.ancestors "/cache") |}
                [x2a] [[x00]; [x01]; [x02]; [x03]]) as Hthm.
  cbv zeta in Hthm.
  destruct Hthm as (Htrace & _ & Hlen & _ & _ & _ & _ & _ & _ & Hcrop & Hrest);
    [vm_compute; reflexivity ..|].
  split; [vm_compute; reflexivity|]. split; [exact Htrace|].
  split; [exact Hlen|]. split; [|split].
  - etransitivity; [exact (Hcrop 0 [x00] eq_refl)|vm_compute; reflexivity].
  - etransitivity; [exact (Hcrop 3 [x03] eq_refl)|vm_compute; reflexivity].
  - etransitivity; [apply (Hrest "/in/cat.jpg")|vm_compute; reflexivity].
    intros j _. rewrite crop_filename_eq. vm_compute. discriminate.
Defined.

(** [cat.jpg] read through two functions. *)
Lemma read_pipeline_on_scenario :
  let s := PathImageSource "/in/cat.jpg" (Some [total invert; total double]) None in
  files (w_fs w0) !! "/in/cat.jpg" = Some [x2a] /\
  imdecode [x2a] = inr [x2a] /\
  fst (read s w0) = pipeline [total invert; total double] [x2a] /\
  fst (read s w0) = inr [xd5; xd5].
Proof.
  cbv zeta.
  destruct (PathImageSource_read_pipeline
              "/in/cat.jpg" (Some [total invert; total double]) None w0
              [x2a] [x2a]) as (Hpipe & Htotal & _);
    [vm_compute; reflexivity ..|].
  split; [vm_compute; reflexivity|]. split; [reflexivity|].
  split; [exact Hpipe|]. exact (Htotal [invert; double] eq_refl).
Defined.


(** The four crops of [cat.jpg], saved in some order into a fresh cache. *)
Lemma group_moves_all_on_scenario :
  let members := [(1%Z, "cat_1"); (0%Z, "cat_0"); (3%Z, "cat_3"); (2%Z, "cat_2")] in
  let r := save_all (crop_group cat split_into_4 members)
                    "/out" ".jpg" (Some "/cache") w0 in
  fst r = inr tt /\
  forall n, In n (List.map snd members) ->
    is_Some (files (w_fs (snd r)) !! os_path.join "/out" (n +:+ ".jpg")) /\
    FS.path_exists (w_fs (snd r)) (os_path.join "/cache" (n +:+ ".jpg")) = false.
Proof.
  cbv zeta. split; [vm_compute; reflexivity|].
  apply (CropImageSource_group_moves_all
           cat split_into_4
           [(1%Z, "cat_1"); (0%Z, "cat_0"); (3%Z, "cat_3"); (2%Z, "cat_2")]
           "/out" ".jpg" "/cache" "cat" w0 _
           {| files := files fs0;
              dirs := dirs fs0 ∪ list_to_set (FS.ancestors "/cache") |}).
  - intros n [<-|[<-|[<-|[<-|[]]]]]; reflexivity.
  - apply (bool_decide_unpack _). vm_compute. exact I.
  - vm_compute; reflexivity.
  - intros n [<-|[<-|[<-|[<-|[]]]]]; vm_compute; reflexivity.
  - intros n m [<-|[<-|[<-|[<-|[]]]]] [<-|[<-|[<-|[<-|[]]]]];
      vm_compute; discriminate.
  - intros n [<-|[<-|[<-|[<-|[]]]]]; split; vm_compute; discriminate.
  - intros j. generalize (PyStr.str j). intros s. vm_compute. discriminate.
  - vm_compute; reflexivity.
Defined.

(** ** Where the specification and the code part *)

(** C3 as the specification has it fails on a cache that already holds
    the entry of one member.  With [cat_0.jpg] left in the cache by an
    earlier run, the save of [cat_0] moves that stale file; the save of [cat_1]
    then finds its own entry missing, populates the cache again and moves
    [cat_1.jpg]: both saves return, and [cat_0.jpg] is in the cache
    directory again. *)
Lemma group_on_stale_cache :
  let r := save_all (crop_group cat split_into_2
                                [(0%Z, "cat_0"); (1%Z, "cat_1")])
                    "/out" ".jpg" (Some "/cache") (mk_world fs_stale []) in
  fst r = inr tt /\
  files (w_fs (snd r)) !! os_path.join "/out" ("cat_0" +:+ ".jpg")
    = Some [xff] /\
  files (w_fs (snd r)) !! os_path.join "/out" ("cat_1" +:+ ".jpg")
    = Some [x01] /\
  FS.path_exists (w_fs (snd r)) (os_path.join "/cache" ("cat_0" +:+ ".jpg"))
    = true /\
  files (w_fs (snd r)) !! os_path.join "/cache" ("cat_0" +:+ ".jpg")
    = Some [x00] /\
  List.filter is_EvCropper (w_trace (snd r)) = [EvCropper [x2a]].
Proof. vm_compute. repeat split. Qed.

(** C1 as the specification has it fails when the crops cannot be
    written.  With the name [sub/cat_1] the crops are to go below
    [/cache/sub], which does not exist: [cv2.imwrite] is called for each
    of the four crops and returns [False] each time, no crop is written,
    and nothing tells of it until the move fails for want of its
    source. *)
Lemma cold_save_writes_no_crop :
  let r := save (CropImageSource cat 1 split_into_4 "sub/cat_1")
                "/out" ".jpg" (Some "/cache") w0 in
  FS.makedirs "/cache" (w_fs w0) = inr fs0_cache /\
  FS.path_exists fs0_cache (os_path.join "/cache" ("sub/cat_1" +:+ ".jpg"))
    = false /\
  fst (read cat (mk_world fs0_cache [EvMakedirs "/cache"])) = inr [x2a] /\
  encodes_all "/cache" "sub/cat_1" ".jpg" 0 [[x00]; [x01]; [x02]; [x03]]
    = true /\
  w_trace (snd r) =
    [EvMakedirs "/cache"; EvFromfile "/in/cat.jpg"; EvCropper [x2a];
     EvImwrite "/cache/sub/cat_0.jpg" [x00];
     EvImwrite "/cache/sub/cat_1.jpg" [x01];
     EvImwrite "/cache/sub/cat_2.jpg" [x02];
     EvImwrite "/cache/sub/cat_3.jpg" [x03];
     EvRename "/cache/sub/cat_1.jpg" "/out/sub/cat_1.jpg"] /\
  fst (cv2_imwrite "/cache/sub/cat_0.jpg" [x00] (mk_world fs0_cache []))
    = inr false /\
  files (w_fs (snd r)) !! "/cache/sub/cat_0.jpg" = None /\
  files (w_fs (snd r)) !! "/cache/sub/cat_1.jpg" = None /\
  files (w_fs (snd r)) !! "/cache/sub/cat_2.jpg" = None /\
  files (w_fs (snd r)) !! "/cache/sub/cat_3.jpg" = None /\
  w_fs (snd r) = fs0_cache /\
  fst r = inl FileNotFoundError.
Proof. vm_compute. repeat split. Qed.



(** ** The further properties on the worked scenario *)

(** [os.rename] on the scenario.  What it raises follows the order in
    which [rename(2)] decides: a regular file on the way to the
    destination and a change of device are found before a missing
    source is. *)
Lemma rename_on_scenario :
  FS.rename "/cache/cat_9.jpg" "/out/cat_9.jpg" fs_warm
    = inl FileNotFoundError /\
  FS.rename "/cache/cat_9.jpg" "/in/cat.jpg/cat_9.jpg" fs_warm
    = inl NotADirectoryError /\
  FS.rename "/cache/cat_2.jpg" "/in/cat.jpg/sub/cat_2.jpg" fs_warm
    = inl NotADirectoryError /\
  FS.rename "/cache/cat_2.jpg" "/nowhere/cat_2.jpg" fs_warm
    = inl FileNotFoundError /\
  FS.rename "/cache/cat_2.jpg" "/out" fs_warm = inl IsADirectoryError /\
  @FS.rename two_devices "/cache/cat_2.jpg" "/mnt/cat_2.jpg" fs_mnt
    = inl OSError_other /\
  @FS.rename two_devices "/cache/cat_9.jpg" "/mnt/cat_9.jpg" fs_mnt
    = inl OSError_other /\
  FS.rename "/cache/cat_2.jpg" "/cache/cat_2.jpg" fs_warm = inr fs_warm.
Proof. vm_compute. repeat split. Qed.

(** Opening a file for writing on the scenario. *)
Lemma write_error_on_scenario :
  FS.write_error fs_warm "/out/cat.jpg" = None /\
  FS.write_error fs_warm "/in/cat.jpg" = None /\
  FS.write_error fs_warm "/out" = Some IsADirectoryError /\
  FS.write_error fs_warm "/nowhere/cat.jpg" = Some FileNotFoundError /\
  FS.write_error fs_warm "/in/cat.jpg/cat.jpg" = Some NotADirectoryError /\
  FS.write_error fs_warm "/in/cat.jpg/sub/cat.jpg" = Some NotADirectoryError.
Proof. vm_compute. repeat split. Qed.

(** [cat_2] saved from a warm cache into a directory on another device:
    the output path could be opened for writing, but [os.rename] does
    not cross devices, and the entry stays in the cache. *)
Lemma warm_save_across_devices :
  let r := @save cv2_toy two_devices
                 (CropImageSource cat 2 split_into_4 "cat_2")
                 "/mnt" ".jpg" (Some "/cache") (mk_world fs_mnt []) in
  FS.writable fs_mnt "/mnt/cat_2.jpg" = true /\
  fst r = inl OSError_other /\
  files (w_fs (snd r)) !! "/cache/cat_2.jpg" = Some [x02] /\
  files (w_fs (snd r)) !! "/mnt/cat_2.jpg" = None.
Proof. vm_compute. repeat split. Qed.

(** An encoder that fails: [save] raises and nothing is written. *)
Lemma save_failed_encode_raises :
  cv2_imencode ".bad" [x2a] = inr (false, None) /\
  fst (save cat "/out" ".bad" None w0) = inl AttributeError /\
  w_fs (snd (save cat "/out" ".bad" None w0)) = fs0 /\
  fst (save cat "/out" ".png" None w0) = inl cv2_error /\
  w_fs (snd (save cat "/out" ".png" None w0)) = fs0.
Proof. vm_compute. repeat split. Qed.

(** [cat.jpg] saved as [/out/cat.jpg]. *)
Lemma save_encodes_with_image_ext_on_scenario :
  let r := save (PathSource "/in/cat.jpg" [] "cat") "/out" ".jpg" None w0 in
  fst r = inr tt /\
  files (w_fs (snd r)) !! os_path.join "/out" ("cat" +:+ ".jpg") = Some [x2a].
Proof.
apply (PathImageSource_save_encodes_with_image_ext
         "/in/cat.jpg" [] "cat" "/out" "jpg" None w0 [x2a] true [x2a]);
  vm_compute; reflexivity.
Defined.

(** [cat.jpg] saved as [/out/cat.jpg] and loaded from there. *)
Lemma save_then_load_on_scenario :
  let w' := snd (save (PathSource "/in/cat.jpg" [] "cat")
                      "/out" ".jpg" None w0) in
  let out := os_path.join "/out" ("cat" +:+ ".jpg") in
  name (PathImageSource out None None) = "cat" /\
  exists img ok buf,
    fst (read (PathSource "/in/cat.jpg" [] "cat") w0) = inr img /\
    imencode ".jpg" img = inr (ok, buf) /\
    fst (read (PathImageSource out None None) w') = imdecode buf.
Proof.
apply (PathImageSource_save_then_load
         "/in/cat.jpg" [] "cat" "/out" "jpg" None w0);
  vm_compute; reflexivity.
Defined.

(** [cat_2] with index 0, saved into a cold cache: crop 2 comes out. *)
Lemma cold_output_on_scenario :
  let w' := snd (save (CropImageSource cat 0 split_into_4 "cat_2")
                      "/out" ".jpg" (Some "/cache") w0) in
  exists img crops k crop buf,
    fst (read cat (mk_world fs0_cache (w_trace w0 ++ [EvMakedirs "/cache"])))
      = inr img /\
    split_into_4 img = inr crops /\
    crops !! k = Some crop /\
    "cat_2" = PyStr.join "_" (removelast (PyStr.split "_" "cat_2"))
                +:+ "_" +:+ PyStr.str k /\
    imwrite_encode (os_path.join "/cache" ("cat_2" +:+ ".jpg")) crop
      = inr (Some buf) /\
    files (w_fs w') !! os_path.join "/out" ("cat_2" +:+ ".jpg") = Some buf /\
    (os_path.join "/cache" ("cat_2" +:+ ".jpg")
       <> os_path.join "/out" ("cat_2" +:+ ".jpg") ->
     files (w_fs w') !! os_path.join "/cache" ("cat_2" +:+ ".jpg") = None).
Proof.
apply (CropImageSource_save_cold_output
         cat 0 split_into_4 "cat_2" "/out" ".jpg" "/cache" w0 _ fs0_cache);
  vm_compute; reflexivity.
Defined.



(** [cat_2] saved into a cold cache: the original image is left alone. *)
Lemma save_frame_on_scenario :
  let r := save (CropImageSource cat 2 split_into_4 "cat_2")
                "/out" ".jpg" (Some "/cache") w0 in
  dirs (w_fs (snd r)) = dirs fs0_cache /\
  files (w_fs (snd r)) !! "/in/cat.jpg" = files (w_fs w0) !! "/in/cat.jpg".
Proof.
destruct (CropImageSource_save_frame
            cat 2 split_into_4 "cat_2" "/out" ".jpg" "/cache" w0 fs0_cache)
  as [Hd Hf]; [vm_compute; reflexivity ..|].
split; [exact Hd|]. apply Hf.
- vm_compute; discriminate.
- vm_compute; discriminate.
- intros j. unfold crop_filename. generalize (PyStr.str j). intros s.
  vm_compute. discriminate.
Defined.

(** [cat_2] saved twice. *)
Lemma save_again_on_scenario :
  let s := CropImageSource cat 2 split_into_4 "cat_2" in
  let w1 := snd (save s "/out" ".jpg" (Some "/cache") w0) in
  FS.path_exists (w_fs w1) (os_path.join "/cache" ("cat_2" +:+ ".jpg"))
    = false /\
  exists evs,
    w_trace (snd (save s "/out" ".jpg" (Some "/cache") w1))
    = w_trace w1 ++ EvMakedirs "/cache" :: EvFromfile (root_path cat) :: evs.
Proof.
apply (CropImageSource_save_again_recomputes
         cat 2 split_into_4 "cat_2" "/out" ".jpg" "/cache" w0 _ fs0_cache).
- vm_compute; reflexivity.
- vm_compute; reflexivity.
- vm_compute; discriminate.
- vm_compute; reflexivity.
Defined.

(** The hypotheses on the four crop sources of [cat.jpg], whatever their
    order. *)
Ltac each_cat :=
  let Hn := fresh in
  intros ? Hn; simpl in Hn;
  repeat match type of Hn with
         | _ \/ _ => destruct Hn as [<-|Hn]
         | False => destruct Hn
         end.

Ltac cats_nodup := apply (bool_decide_unpack _); vm_compute; exact I.

Ltac cats_apart :=
  let Hn := fresh in
  let Hm := fresh in
  intros ? ? Hn Hm; simpl in Hn, Hm;
  repeat match type of Hn with
         | _ \/ _ => destruct Hn as [<-|Hn]
         | False => destruct Hn
         end;
  repeat match type of Hm with
         | _ \/ _ => destruct Hm as [<-|Hm]
         | False => destruct Hm
         end;
  vm_compute; discriminate.

Ltac cat_not_a_crop :=
  let j := fresh in
  let s := fresh in
  intros j; generalize (PyStr.str j); intros s; vm_compute; discriminate.

(** The four crops of [cat.jpg]: one read, one cropper call, four moves. *)
Lemma group_crops_once_on_scenario :
  let w' := snd (save_all (crop_group cat split_into_4 cats)
                          "/out" ".jpg" (Some "/cache") w0) in
  exists img crops evs,
    fst (read cat (mk_world fs0_cache (w_trace w0 ++ [EvMakedirs "/cache"])))
      = inr img /\
    split_into_4 img = inr crops /\
    w_trace w' = w_trace w0 ++ evs /\
    evs = [EvMakedirs "/cache"; EvFromfile (root_path cat); EvCropper img]
            ++ imwrite_events "/cache" "cat_1" ".jpg" 0 crops
            ++ [EvRename (os_path.join "/cache" ("cat_1" +:+ ".jpg"))
                         (os_path.join "/out" ("cat_1" +:+ ".jpg"))]
            ++ move_events "/cache" "/out" ".jpg" ["cat_0"; "cat_3"; "cat_2"] /\
    length (List.filter is_EvCropper evs) = 1 /\
    length (List.filter is_EvFromfile evs) = 1 /\
    length (List.filter is_EvRename evs) = 4.
Proof.
apply (CropImageSource_group_crops_once
         cat split_into_4 1 "cat_1"
         [(0%Z, "cat_0"); (3%Z, "cat_3"); (2%Z, "cat_2")]
         "/out" ".jpg" "/cache" "cat" w0 _ fs0_cache).
- each_cat; reflexivity.
- cats_nodup.
- vm_compute; reflexivity.
- each_cat; vm_compute; reflexivity.
- cats_apart.
- each_cat; split; vm_compute; discriminate.
- cat_not_a_crop.
- vm_compute; reflexivity.
Defined.

(** The four crops of [cat.jpg], with indices that do not match the
    names: each output holds the crop that its name asks for. *)
Lemma group_outputs_on_scenario :
  let w' := snd (save_all (crop_group cat split_into_4 cats')
                          "/out" ".jpg" (Some "/cache") w0) in
  exists img crops,
    fst (read cat (mk_world fs0_cache (w_trace w0 ++ [EvMakedirs "/cache"])))
      = inr img /\
    split_into_4 img = inr crops /\
    forall n, In n ["cat_2"; "cat_3"; "cat_0"; "cat_1"] ->
      exists k crop buf,
        crops !! k = Some crop /\
        n = "cat" +:+ "_" +:+ PyStr.str k /\
        imwrite_encode (os_path.join "/cache" (n +:+ ".jpg")) crop
          = inr (Some buf) /\
        files (w_fs w') !! os_path.join "/out" (n +:+ ".jpg") = Some buf.
Proof.
apply (CropImageSource_group_outputs
         cat split_into_4 7 "cat_2"
         [(7%Z, "cat_3"); (7%Z, "cat_0"); (7%Z, "cat_1")]
         "/out" ".jpg" "/cache" "cat" w0 _ fs0_cache).
- each_cat; reflexivity.
- cats_nodup.
- cats_nodup.
- vm_compute; reflexivity.
- each_cat; vm_compute; reflexivity.
- cats_apart.
- each_cat; split; vm_compute; discriminate.
- cat_not_a_crop.
- vm_compute; reflexivity.
Defined.

(** Two of the four crops of [cat.jpg] saved: the other two stay in the
    cache. *)
Lemma group_leaves_siblings_on_scenario :
  let w' := snd (save_all (crop_group cat split_into_4
                                      [(0%Z, "cat_0"); (2%Z, "cat_2")])
                          "/out" ".jpg" (Some "/cache") w0) in
  files (w_fs w') !! "/cache/cat_1.jpg" = Some [x01] /\
  files (w_fs w') !! "/cache/cat_3.jpg" = Some [x03].
Proof.
pose proof (CropImageSource_group_leaves_siblings
              cat split_into_4 0 "cat_0" [(2%Z, "cat_2")]
              "/out" ".jpg" "/cache" "cat" w0
              (snd (save_all (crop_group cat split_into_4
                                         [(0%Z, "cat_0"); (2%Z, "cat_2")])
                             "/out" ".jpg" (Some "/cache") w0))
              fs0_cache [x2a] [[x00]; [x01]; [x02]; [x03]]) as Hthm.
cbv zeta in Hthm.
assert (Hleft : forall j crop buf,
          [[x00]; [x01]; [x02]; [x03]] !! j = Some crop ->
          imwrite_encode
            (os_path.join "/cache" ("cat" +:+ "_" +:+ PyStr.str j +:+ ".jpg"))
            crop = inr (Some buf) ->
          FS.writable fs0_cache
            (os_path.join "/cache" ("cat" +:+ "_" +:+ PyStr.str j +:+ ".jpg"))
            = true ->
          (forall n, In n ["cat_0"; "cat_2"] ->
             os_path.join "/cache" ("cat" +:+ "_" +:+ PyStr.str j +:+ ".jpg")
               <> os_path.join "/cache" (n +:+ ".jpg") /\
             os_path.join "/cache" ("cat" +:+ "_" +:+ PyStr.str j +:+ ".jpg")
               <> os_path.join "/out" (n +:+ ".jpg")) ->
          files (w_fs (snd (save_all (crop_group cat split_into_4
                                        [(0%Z, "cat_0"); (2%Z, "cat_2")])
                               "/out" ".jpg" (Some "/cache") w0)))
            !! os_path.join "/cache"
                 ("cat" +:+ "_" +:+ PyStr.str j +:+ ".jpg") = Some buf).
{ apply Hthm.
  - each_cat; reflexivity.
  - cats_nodup.
  - vm_compute; reflexivity.
  - each_cat; vm_compute; reflexivity.
  - cats_apart.
  - each_cat; split; vm_compute; discriminate.
  - cat_not_a_crop.
  - vm_compute; reflexivity.
  - reflexivity.
  - vm_compute; reflexivity. }
split.
- apply (Hleft 1 [x01] [x01]); try (vm_compute; reflexivity).
  each_cat; split; vm_compute; discriminate.
- apply (Hleft 3 [x03] [x03]); try (vm_compute; reflexivity).
  each_cat; split; vm_compute; discriminate.
Defined.

(** The four crops of [cat.jpg] saved in two orders. *)
Lemma group_order_irrelevant_on_scenario :
  w_fs (snd (save_all (crop_group cat split_into_4 cats)
                      "/out" ".jpg" (Some "/cache") w0))
  = w_fs (snd (save_all (crop_group cat split_into_4 cats')
                        "/out" ".jpg" (Some "/cache") w0)).
Proof.
apply (CropImageSource_group_order_irrelevant
         cat split_into_4
         1 "cat_1" [(0%Z, "cat_0"); (3%Z, "cat_3"); (2%Z, "cat_2")]
         7 "cat_2" [(7%Z, "cat_3"); (7%Z, "cat_0"); (7%Z, "cat_1")]
         "/out" ".jpg" "/cache" "cat" w0 _ _ fs0_cache).
- simpl. apply (bool_decide_unpack _). vm_compute. exact I.
- each_cat; reflexivity.
- cats_nodup.
- cats_nodup.
- vm_compute; reflexivity.
- each_cat; vm_compute; reflexivity.
- cats_apart.
- each_cat; split; vm_compute; discriminate.
- cat_not_a_crop.
- vm_compute; reflexivity.
- vm_compute; reflexivity.
Defined.
